(** * The client-side notification engine of the dashboard

    A shallow embedding of [src/contexts/NotificationContext.tsx]: the
    [NotificationProvider] component, its React state, the browser objects it
    talks to ([localStorage], the [Notification] API, the clock) and the
    operations it exports through [useNotifications]; and, of its callers,
    the signals that AppContext.tsx dispatches and the age label of the
    notification menu (Navigation component).

    Conventions of the embedding.
    - React state ([useState]) is the record [State]; a state setter is a
      write to the corresponding field.  Every exported operation is invoked
      on the closure of the latest render, so the values it reads from its
      closure ([settings], [notifications], [pushSupported]) are the fields of
      the current [State].  A functional update [setX(prev => ...)] reads the
      field at the moment it is applied.
    - The browser is split in two: [Platform] holds what the component can
      only observe (capabilities, clock, what a permission prompt answers,
      whether the storage quota is exhausted, how dates and numbers are
      parsed and printed); [World] holds what it changes ([localStorage], the
      permission, the module-level counter and [defaultSettings] object, the
      native alerts shown).
    - A JavaScript exception is the outcome [Thrown]; for an [async] function
      this is the rejected promise.  State written before the exception
      stays written.
    - A functional update [setX(prev => ...)] whose updater throws: the
      setter itself does not throw, the call that issued it goes on, the
      state keeps its value and the exception surfaces from React's render.
      The embedding applies the updater at once and records such an
      exception in [renderErrors].
    - A JavaScript number is a binary64 float ([PrimFloat.float]) with its
      own addition and division; [Math.round] and the printing of numbers
      are functions of the platform.
    - [JSON.stringify] followed by [JSON.parse] is the identity on the values
      the component stores, so [localStorage] holds structured values
      ([Stored]) instead of their text. *)

From Stdlib Require Import ZArith Lia.
From Stdlib Require Floats.PrimFloat Floats.FloatOps.
From Stdlib Require Numbers.Cyclic.Int63.Uint63.
From stdpp Require Import base strings list gmap pretty.

Local Open Scope Z_scope.
Local Open Scope string_scope.

(** ** Data model (lines 6-24 of the source) *)

Record NotificationSettings := mkSettings {
  email : bool;
  push : bool;
  weeklySummary : bool;
  taskReminders : bool;
  deadlineAlerts : bool;
  teamUpdates : bool;
}.

(** [Partial<NotificationSettings>]: the argument of [updateSettings], and
    also what [JSON.parse] yields for a stored settings object. *)
Record PartialSettings := mkPartial {
  p_email : option bool;
  p_push : option bool;
  p_weeklySummary : option bool;
  p_taskReminders : option bool;
  p_deadlineAlerts : option bool;
  p_teamUpdates : option bool;
}.

(** The object spread [{ ...base, ...p }]. *)
Definition spread (base : NotificationSettings) (p : PartialSettings)
  : NotificationSettings :=
  {| email := default (email base) (p_email p);
     push := default (push base) (p_push p);
     weeklySummary := default (weeklySummary base) (p_weeklySummary p);
     taskReminders := default (taskReminders base) (p_taskReminders p);
     deadlineAlerts := default (deadlineAlerts base) (p_deadlineAlerts p);
     teamUpdates := default (teamUpdates base) (p_teamUpdates p) |}.

(** [{ ...s, push: b }] and the in-place assignment [s.push = b]. *)
Definition with_push (b : bool) (s : NotificationSettings)
  : NotificationSettings :=
  {| email := email s; push := b; weeklySummary := weeklySummary s;
     taskReminders := taskReminders s; deadlineAlerts := deadlineAlerts s;
     teamUpdates := teamUpdates s |}.

(** A full settings object seen as the JSON object that is written. *)
Definition to_partial (s : NotificationSettings) : PartialSettings :=
  {| p_email := Some (email s); p_push := Some (push s);
     p_weeklySummary := Some (weeklySummary s);
     p_taskReminders := Some (taskReminders s);
     p_deadlineAlerts := Some (deadlineAlerts s);
     p_teamUpdates := Some (teamUpdates s) |}.

(** Only the fields of [User] (AuthContext.tsx) that the provider reads. *)
Record User := mkUser {
  user_id : string;
  user_name : string;
}.

Inductive NotificationType := type_email | type_push | type_system.

Inductive Category :=
  cat_deadline | cat_task | cat_team | cat_summary | cat_project.

(** The [data?: any] payload: one constructor per object literal that the
    source builds. *)
Inductive Data :=
| DataProject (projectId : string)
| DataTask (projectCount : nat) (projects : list string)
| DataSummary (completed inProgress overdue total : nat)
              (avgProgress totalBudget : PrimFloat.float)
| DataTeamUpdate (projectId : option string) (actionUser : User)
| DataTeamCreated (projectId : string) (creator : User).

(** [created_at] is the instant (milliseconds since the epoch) whose ISO-8601
    text the source stores. *)
Record Notification := mkNotification {
  id : string;
  type : NotificationType;
  category : Category;
  title : string;
  message : string;
  data : option Data;
  read : bool;
  created_at : Z;
}.

(** [Omit<Notification, 'id' | 'read' | 'created_at'>]. *)
Record Candidate := mkCandidate {
  c_type : NotificationType;
  c_category : Category;
  c_title : string;
  c_message : string;
  c_data : option Data;
}.

Inductive ProjectStatus :=
  planning | in_progress | review | completed | on_hold.

(** The fields of a project (AppContext.tsx) that the evaluators read.  A
    field that may be missing is an [option]; [budget] and [progress] are
    JavaScript numbers. *)
Record Project := mkProject {
  project_id : string;
  project_name : string;
  status : ProjectStatus;
  due_date : option string;
  deadline : option string;
  budget : option PrimFloat.float;
  progress : option PrimFloat.float;
  project_created_at : string;
  project_updated_at : option string;
}.

(** ** The browser *)

(** [Notification.permission]. *)
Inductive Permission := granted | denied | prompt_default.

(** What a key of [localStorage] holds, after [JSON.parse]. *)
Inductive Stored :=
| JSettings (p : PartialSettings)
| JNotifications (l : list Notification)
| JInvalid (raw : string).

Record NativeAlert := mkAlert {
  alert_title : string;
  alert_body : string;
  alert_tag : string;
}.

(** What the component observes of the platform and cannot change. *)
Record Platform := mkPlatform {
  (** ['Notification' in window] *)
  hasNotificationAPI : bool;
  (** ['serviceWorker' in navigator] *)
  hasServiceWorker : bool;
  (** [Date.now()] and [new Date().getTime()] *)
  clock : Z;
  (** [Math.random().toString(36).substring(2, 8)], for the n-th id *)
  randomSuffix : nat → string;
  (** [localStorage.setItem] throws (quota exceeded) *)
  quotaExceeded : bool;
  (** what [Notification.requestPermission()] resolves to; [None] when the
      call itself throws *)
  requestAnswer : option Permission;
  (** [new Notification(...)] throws *)
  alertThrows : bool;
  (** [new Date(s).getTime()]; [None] is the invalid date (NaN) *)
  Date_parse : string → option Z;
  (** [Math.round(x)] *)
  Math_round : PrimFloat.float → PrimFloat.float;
  (** the text of a number in a template literal *)
  Number_toString : PrimFloat.float → string;
  (** [x.toLocaleString()] *)
  toLocaleString : PrimFloat.float → string;
}.

(** The exceptions of the platform that the component meets. *)
Inductive Exn := QuotaExceededError | AlertConstructionError.

(** What the component changes outside of its React state. *)
Record World := mkWorld {
  localStorage : gmap string Stored;
  (** the writes that took effect, oldest first *)
  storageLog : list (string * Stored);
  permission : Permission;
  (** the module-level [let notificationCounter] *)
  notificationCounter : nat;
  (** the module-level object [defaultSettings]; the initialisation effect
      can assign to its [push] field through an alias *)
  defaultSettings : NotificationSettings;
  alerts : list NativeAlert;
  (** the exceptions that state updaters threw while React applied them;
      they surface from the render, not from the call that issued the
      update *)
  renderErrors : list Exn;
}.

(** The [useState] cells of [NotificationProvider] (lines 66-70). *)
Record State := mkState {
  settings : NotificationSettings;
  notifications : list Notification;
  unreadCount : nat;
  pushSupported : bool;
  initialized : bool;
}.

Record Config := mkConfig {
  react : State;
  world : World;
}.

(** The object literal of lines 43-50. *)
Definition defaultSettings0 : NotificationSettings :=
  {| email := true; push := false; weeklySummary := false;
     taskReminders := true; deadlineAlerts := true; teamUpdates := true |}.

(** The first render: [useState(defaultSettings)], [useState([])],
    [useState(0)], [useState(false)], [useState(false)]. *)
Definition initialState (w : World) : State :=
  {| settings := defaultSettings w; notifications := []; unreadCount := 0%nat;
     pushSupported := false; initialized := false |}.

Definition freshWorld (store : gmap string Stored) (perm : Permission) : World :=
  {| localStorage := store; storageLog := []; permission := perm;
     notificationCounter := 0%nat; defaultSettings := defaultSettings0;
     alerts := []; renderErrors := [] |}.

(** ** Operations as state transformers that may throw *)

Inductive Outcome (A : Type) :=
| Returned (a : A)
| Thrown (e : Exn).
Arguments Returned {A} a.
Arguments Thrown {A} e.

Definition Op (A : Type) : Type := Config → Outcome A * Config.

#[global] Instance op_ret : MRet Op := λ A a c, (Returned a, c).

#[global] Instance op_bind : MBind Op := λ A B f m c,
  match m c with
  | (Returned a, c') => f a c'
  | (Thrown e, c') => (Thrown e, c')
  end.

Definition throw {A} (e : Exn) : Op A := λ c, (Thrown e, c).

(** [try { m } catch (error) { h }] *)
Definition try_catch {A} (m : Op A) (h : Exn → Op A) : Op A :=
  λ c, match m c with
       | (Returned a, c') => (Returned a, c')
       | (Thrown e, c') => h e c'
       end.

(** A call whose promise is dropped: the caller goes on whatever happens. *)
Definition detached (m : Op unit) : Op unit :=
  try_catch m (λ _, mret tt).

Definition gets {A} (f : Config → A) : Op A := λ c, (Returned (f c), c).

Definition modify_react (f : State → State) : Op unit :=
  λ c, (Returned tt, {| react := f (react c); world := world c |}).

Definition modify_world (f : World → World) : Op unit :=
  λ c, (Returned tt, {| react := react c; world := f (world c) |}).

Definition when (b : bool) (m : Op unit) : Op unit :=
  if b then m else mret tt.

(** *** State setters *)

Definition setSettings (s : NotificationSettings) : Op unit :=
  modify_react (λ st, {| settings := s; notifications := notifications st;
    unreadCount := unreadCount st; pushSupported := pushSupported st;
    initialized := initialized st |}).

Definition setNotifications (l : list Notification) : Op unit :=
  modify_react (λ st, {| settings := settings st; notifications := l;
    unreadCount := unreadCount st; pushSupported := pushSupported st;
    initialized := initialized st |}).

Definition setUnreadCount (n : nat) : Op unit :=
  modify_react (λ st, {| settings := settings st;
    notifications := notifications st; unreadCount := n;
    pushSupported := pushSupported st; initialized := initialized st |}).

Definition setPushSupported (b : bool) : Op unit :=
  modify_react (λ st, {| settings := settings st;
    notifications := notifications st; unreadCount := unreadCount st;
    pushSupported := b; initialized := initialized st |}).

Definition setInitialized (b : bool) : Op unit :=
  modify_react (λ st, {| settings := settings st;
    notifications := notifications st; unreadCount := unreadCount st;
    pushSupported := pushSupported st; initialized := b |}).

(** *** The browser objects *)

Definition getItem (key : string) : Op (option Stored) :=
  gets (λ c, localStorage (world c) !! key).

Definition setItem (pf : Platform) (key : string) (v : Stored) : Op unit :=
  if quotaExceeded pf then throw QuotaExceededError
  else modify_world (λ w,
    {| localStorage := <[key := v]> (localStorage w);
       storageLog := storageLog w ++ [(key, v)];
       permission := permission w;
       notificationCounter := notificationCounter w;
       defaultSettings := defaultSettings w; alerts := alerts w;
       renderErrors := renderErrors w |}).

Definition removeItem (key : string) : Op unit :=
  modify_world (λ w,
    {| localStorage := delete key (localStorage w);
       storageLog := storageLog w;
       permission := permission w;
       notificationCounter := notificationCounter w;
       defaultSettings := defaultSettings w; alerts := alerts w;
       renderErrors := renderErrors w |}).

Definition setPermission (p : Permission) : Op unit :=
  modify_world (λ w,
    {| localStorage := localStorage w; storageLog := storageLog w;
       permission := p; notificationCounter := notificationCounter w;
       defaultSettings := defaultSettings w; alerts := alerts w;
       renderErrors := renderErrors w |}).

Definition setNotificationCounter (n : nat) : Op unit :=
  modify_world (λ w,
    {| localStorage := localStorage w; storageLog := storageLog w;
       permission := permission w; notificationCounter := n;
       defaultSettings := defaultSettings w; alerts := alerts w;
       renderErrors := renderErrors w |}).

Definition assignDefaultSettings (s : NotificationSettings) : Op unit :=
  modify_world (λ w,
    {| localStorage := localStorage w; storageLog := storageLog w;
       permission := permission w;
       notificationCounter := notificationCounter w;
       defaultSettings := s; alerts := alerts w;
       renderErrors := renderErrors w |}).

(** [new Notification(title, { body, icon, tag, requireInteraction })] *)
Definition newNativeAlert (pf : Platform) (a : NativeAlert) : Op unit :=
  if alertThrows pf then throw AlertConstructionError
  else modify_world (λ w,
    {| localStorage := localStorage w; storageLog := storageLog w;
       permission := permission w;
       notificationCounter := notificationCounter w;
       defaultSettings := defaultSettings w; alerts := alerts w ++ [a];
       renderErrors := renderErrors w |}).

(** A functional update [setX(updater)]: React applies the updater; when
    it throws, the setter does not, the state keeps its value and the
    exception surfaces from the render. *)
Definition applyUpdater (updater : Op unit) : Op unit :=
  try_catch updater
    (λ e, modify_world (λ w,
       {| localStorage := localStorage w; storageLog := storageLog w;
          permission := permission w;
          notificationCounter := notificationCounter w;
          defaultSettings := defaultSettings w; alerts := alerts w;
          renderErrors := renderErrors w ++ [e] |})).

Definition settingsKey (u : User) : string :=
  "notification_settings_" +:+ user_id u.

Definition notificationsKey (u : User) : string :=
  "notifications_" +:+ user_id u.

(** ** String helpers *)

(** The one-character strings that a literal cannot spell here. *)
Definition dq : string := String (Ascii.ascii_of_nat 34) EmptyString.
Definition nl : string := String (Ascii.ascii_of_nat 10) EmptyString.

(** [a || b] on possibly missing strings: the empty string is falsy. *)
Definition truthy (s : option string) : option string :=
  match s with
  | Some EmptyString => None
  | other => other
  end.

Definition or_else (a b : option string) : option string :=
  match truthy a with
  | Some s => Some s
  | None => truthy b
  end.

(** ** Identity generator (lines 52-61) *)

(** The template literal of line 60. *)
Definition formatId (timestamp : Z) (counter : nat) (random : string)
  : string :=
  "notification-" +:+ pretty timestamp +:+ "-" +:+ pretty counter
  +:+ "-" +:+ random.

Definition generateUniqueNotificationId (pf : Platform) : Op string :=
  n ← gets (λ c, notificationCounter (world c));
  setNotificationCounter (n + 1)%nat;;
  mret (formatId (clock pf) (n + 1)%nat (randomSuffix pf (n + 1)%nat)).

(** ** Notification ledger *)

(** [l.findIndex(p)]; [None] is the source's [-1]. *)
Fixpoint findIndex {A} (p : A → bool) (l : list A) : option nat :=
  match l with
  | [] => None
  | x :: l' => if p x then Some 0%nat else S <$> findIndex p l'
  end.

Definition same_id (a b : Notification) : bool := String.eqb (id a) (id b).

Definition unread (n : Notification) : bool := negb (read n).

(** [l.filter(n => !n.read).length] *)
Definition countUnread (l : list Notification) : nat :=
  length (List.filter unread l).

(** [{ ...n, read: true }] *)
Definition mark_read (n : Notification) : Notification :=
  {| id := id n; type := type n; category := category n; title := title n;
     message := message n; data := data n; read := true;
     created_at := created_at n |}.

(** Line 169-174: [{ ...notification, id, read: false, created_at }]. *)
Definition newNotification (notification : Candidate) (nid : string) (now : Z)
  : Notification :=
  {| id := nid; type := c_type notification;
     category := c_category notification; title := c_title notification;
     message := c_message notification; data := c_data notification;
     read := false; created_at := now |}.

Definition capacity : nat := 50.

(** The updater function of lines 177-186.  The write to [localStorage]
    sits inside it, before it returns: when the write throws, the updater
    throws and yields no new ledger. *)
Definition appendUpdater (pf : Platform) (u : User) (newN : Notification)
  : Op unit :=
  prev ← gets (λ c, notifications (react c));
  match findIndex (λ n, same_id n newN) prev with
  | Some _ => setNotifications prev
  | None =>
      let updated := take capacity (newN :: prev) in
      setItem pf (notificationsKey u) (JNotifications updated);;
      setNotifications updated
  end.

Definition is_granted (p : Permission) : bool :=
  match p with granted => true | _ => false end.

(** Lines 166-208.  The two state setters receive updater functions; the
    call goes on to the native alert and returns whatever the ledger
    updater does. *)
Definition sendNotification (pf : Platform) (user : option User)
    (notification : Candidate) : Op unit :=
  match user with
  | None => mret tt
  | Some u =>
      st ← gets react;
      nid ← generateUniqueNotificationId pf;
      let newN := newNotification notification nid (clock pf) in
      applyUpdater (appendUpdater pf u newN);;
      prev ← gets (λ c, unreadCount (react c));
      setUnreadCount (prev + 1)%nat;;
      perm ← gets (λ c, permission (world c));
      when (push (settings st) && pushSupported st && is_granted perm)
        (try_catch
           (newNativeAlert pf {| alert_title := title newN;
                                 alert_body := message newN;
                                 alert_tag := id newN |})
           (λ _, mret tt))
  end.

(** Lines 211-221. *)
Definition markAsRead (pf : Platform) (user : option User)
    (notificationId : string) : Op unit :=
  match user with
  | None => mret tt
  | Some u =>
      st ← gets react;
      let updatedNotifications :=
        map (λ n, if String.eqb (id n) notificationId then mark_read n else n)
            (notifications st) in
      setNotifications updatedNotifications;;
      setUnreadCount (countUnread updatedNotifications);;
      setItem pf (notificationsKey u) (JNotifications updatedNotifications)
  end.

(** Lines 224-231. *)
Definition markAllAsRead (pf : Platform) (user : option User) : Op unit :=
  match user with
  | None => mret tt
  | Some u =>
      st ← gets react;
      let updatedNotifications := map mark_read (notifications st) in
      setNotifications updatedNotifications;;
      setUnreadCount 0%nat;;
      setItem pf (notificationsKey u) (JNotifications updatedNotifications)
  end.

(** Lines 234-240. *)
Definition clearAll (user : option User) : Op unit :=
  match user with
  | None => mret tt
  | Some u =>
      setNotifications [];;
      setUnreadCount 0%nat;;
      removeItem (notificationsKey u)
  end.

(** ** Settings manager *)

(** Lines 153-163. *)
Definition requestPushPermission (pf : Platform) : Op bool :=
  st ← gets react;
  if negb (pushSupported st) then mret false
  else match requestAnswer pf with
       | Some p => setPermission p;; mret (is_granted p)
       | None => mret false
       end.

Definition is_Some_true (o : option bool) : bool :=
  match o with Some true => true | _ => false end.

(** Lines 134-150. *)
Definition updateSettings (pf : Platform) (user : option User)
    (newSettings : PartialSettings) : Op unit :=
  match user with
  | None => mret tt
  | Some u =>
      st ← gets react;
      let updatedSettings := spread (settings st) newSettings in
      setSettings updatedSettings;;
      setItem pf (settingsKey u) (JSettings (to_partial updatedSettings));;
      if is_Some_true (p_push newSettings) && pushSupported st then
        permitted ← requestPushPermission pf;
        if negb permitted then
          let revertedSettings := with_push false updatedSettings in
          setSettings revertedSettings;;
          setItem pf (settingsKey u) (JSettings (to_partial revertedSettings))
        else mret tt
      else mret tt
  end.

(** Lines 74-78. *)
Definition supportEffect (pf : Platform) : Op unit :=
  when (hasNotificationAPI pf && hasServiceWorker pf) (setPushSupported true).

Fixpoint indexed_from {A} (i : nat) (l : list A) : list (nat * A) :=
  match l with
  | [] => []
  | x :: l' => (i, x) :: indexed_from (S i) l'
  end.

(** Lines 115-117: keep the entry at [index] when it is the first one with
    its id. *)
Definition uniqueById (parsed : list Notification) : list Notification :=
  map snd
    (List.filter
       (λ '(index, notification),
          bool_decide (Some index
                       = findIndex (λ n, same_id n notification) parsed))
       (indexed_from 0 parsed)).

(** The permission sync of lines 97-105, as the value [userSettings] has
    after it. *)
Definition syncPush (supported : bool) (perm : Permission)
    (userSettings : NotificationSettings) : NotificationSettings :=
  if supported then
    match perm with
    | granted =>
        if negb (push userSettings) then with_push true userSettings
        else userSettings
    | denied => with_push false userSettings
    | prompt_default => userSettings
    end
  else userSettings.

(** Lines 81-131.  [userSettings] starts as the object [defaultSettings]
    itself; only a successful parse replaces it by a fresh object, so in the
    other cases the assignment to [userSettings.push] lands in
    [defaultSettings]. *)
Definition initEffect (pf : Platform) (user : option User) : Op unit :=
  st ← gets react;
  match user with
  | None => mret tt
  | Some u =>
      if initialized st then mret tt
      else
        savedSettings ← getItem (settingsKey u);
        defaults ← gets (λ c, defaultSettings (world c));
        perm ← gets (λ c, permission (world c));
        let supported := pushSupported st && hasNotificationAPI pf in
        userSettings ←
          match savedSettings with
          | Some (JSettings parsedSettings) =>
              mret (syncPush supported perm (spread defaults parsedSettings))
          | Some (JNotifications _) =>
              mret (syncPush supported perm defaults)
          | Some (JInvalid _) | None =>
              let s := syncPush supported perm defaults in
              assignDefaultSettings s;; mret s
          end;
        setSettings userSettings;;
        setItem pf (settingsKey u) (JSettings (to_partial userSettings));;
        savedNotifications ← getItem (notificationsKey u);
        match savedNotifications with
        | Some (JNotifications parsedNotifications) =>
            try_catch
              (let uniqueNotifications := uniqueById parsedNotifications in
               when (negb (length uniqueNotifications
                           =? length parsedNotifications)%nat)
                 (setItem pf (notificationsKey u)
                    (JNotifications uniqueNotifications));;
               setNotifications uniqueNotifications;;
               setUnreadCount (countUnread uniqueNotifications))
              (λ _, mret tt)
        | Some (JSettings _) | Some (JInvalid _) | None => mret tt
        end;;
        setInitialized true
  end.

(** ** Rule evaluators *)

(** The truthiness of [user] in the guards [!user]. *)
Definition signedIn (user : option User) : bool :=
  match user with Some _ => true | None => false end.

Definition msPerDay : Z := 1000 * 3600 * 24.

(** [Math.ceil(a / b)] for a positive divisor.  The operands are integers
    far below 2^53, so the floating-point quotient rounds up to the same
    integer as the exact one. *)
Definition ceil_div (a b : Z) : Z := - ((- a) / b).

Definition is_completed (s : ProjectStatus) : bool :=
  match s with completed => true | _ => false end.

(** [project.due_date || project.deadline] *)
Definition dueDateStr (project : Project) : option string :=
  or_else (due_date project) (deadline project).

(** Lines 257-259 (and 312-314): [None] when the date is invalid, in which
    case every comparison on [daysDiff] is false. *)
Definition daysDiff (pf : Platform) (dueDateStr : string) : option Z :=
  dueDate ← Date_parse pf dueDateStr;
  Some (ceil_div (dueDate - clock pf) msPerDay).

Fixpoint forEach {A} (l : list A) (f : A → Op unit) : Op unit :=
  match l with
  | [] => mret tt
  | x :: l' => f x;; forEach l' f
  end.

Definition dueTomorrowAlert (project : Project) : Candidate :=
  {| c_type := type_push; c_category := cat_deadline;
     c_title := "‚è∞ Prazo se aproximando";
     c_message := "O projeto " +:+ dq +:+ project_name project +:+ dq
                  +:+ " vence amanh√£!";
     c_data := Some (DataProject (project_id project)) |}.

Definition dueIn3DaysAlert (project : Project) : Candidate :=
  {| c_type := type_push; c_category := cat_deadline;
     c_title := "üìÖ Prazo em 3 dias";
     c_message := "O projeto " +:+ dq +:+ project_name project +:+ dq
                  +:+ " vence em 3 dias.";
     c_data := Some (DataProject (project_id project)) |}.

Definition overdueAlert (project : Project) (daysDiff : Z) : Candidate :=
  {| c_type := type_push; c_category := cat_deadline;
     c_title := "üö® Projeto em atraso";
     c_message := "O projeto " +:+ dq +:+ project_name project +:+ dq
                  +:+ " est√° " +:+ pretty (Z.abs daysDiff)
                  +:+ " dia(s) atrasado.";
     c_data := Some (DataProject (project_id project)) |}.

(** The callback of [projects.forEach] (lines 251-296).  The promises of
    [sendNotification] are dropped. *)
Definition deadlineAlertsFor (pf : Platform) (user : option User)
    (project : Project) : Op unit :=
  if is_completed (status project) then mret tt
  else match dueDateStr project with
       | None => mret tt
       | Some s =>
           match daysDiff pf s with
           | None => mret tt
           | Some d =>
               when (d =? 1)%Z
                 (detached (sendNotification pf user
                              (dueTomorrowAlert project)));;
               when (d =? 3)%Z
                 (detached (sendNotification pf user
                              (dueIn3DaysAlert project)));;
               when (d <? 0)%Z
                 (detached (sendNotification pf user
                              (overdueAlert project d)))
           end
       end.

(** Lines 243-297.  [projects] is always an array, so [!projects] is
    false. *)
Definition scheduleDeadlineAlerts (pf : Platform) (user : option User)
    (projects : list Project) : Op unit :=
  st ← gets react;
  if negb (deadlineAlerts (settings st)) || negb (signedIn user)
     || (length projects =? 0)%nat
  then mret tt
  else forEach projects (deadlineAlertsFor pf user).

(** The filter of lines 306-317. *)
Definition isUpcoming (pf : Platform) (project : Project) : bool :=
  if is_completed (status project) then false
  else match dueDateStr project with
       | None => false
       | Some s =>
           match daysDiff pf s with
           | None => false
           | Some d => (0 <=? d)%Z && (d <=? 7)%Z
           end
       end.

Definition taskReminder (upcomingProjects : list Project) : Candidate :=
  {| c_type := type_push; c_category := cat_task;
     c_title := "üìã Lembretes de Tarefas";
     c_message := "Voc√™ tem " +:+ pretty (length upcomingProjects)
                  +:+ " projeto(s) com prazo na pr√≥xima semana.";
     c_data := Some (DataTask (length upcomingProjects)
                       (map project_name upcomingProjects)) |}.

(** Lines 300-328. *)
Definition scheduleTaskReminders (pf : Platform) (user : option User)
    (projects : list Project) : Op unit :=
  st ← gets react;
  if negb (taskReminders (settings st)) || negb (signedIn user)
     || (length projects =? 0)%nat
  then mret tt
  else
    let upcomingProjects := List.filter (isUpcoming pf) projects in
    when (0 <? length upcomingProjects)%nat
      (detached (sendNotification pf user (taskReminder upcomingProjects))).

(** Lines 339-343: [new Date(project.updated_at || project.created_at)
    >= weekAgo]. *)
Definition completedSince (pf : Platform) (weekAgo : Z) (project : Project)
  : bool :=
  if is_completed (status project) then
    match or_else (project_updated_at project)
                  (Some (project_created_at project)) with
    | None => false
    | Some s =>
        match Date_parse pf s with
        | None => false
        | Some completedDate => (weekAgo <=? completedDate)%Z
        end
    end
  else false.

Definition isInProgress (project : Project) : bool :=
  match status project with
  | in_progress | planning => true
  | _ => false
  end.

(** Lines 349-355. *)
Definition isOverdue (pf : Platform) (project : Project) : bool :=
  if is_completed (status project) then false
  else match dueDateStr project with
       | None => false
       | Some s =>
           match Date_parse pf s with
           | None => false
           | Some dueDate => (dueDate <? clock pf)%Z
           end
       end.

(** A count as a JavaScript number (exact: array lengths are below 2^32). *)
Definition Number_of_nat (n : nat) : PrimFloat.float :=
  PrimFloat.of_uint63 (Uint63.of_Z (Z.of_nat n)).

(** [x || 0] on a number that may be missing: NaN and both zeros are
    falsy. *)
Definition orZero (x : option PrimFloat.float) : PrimFloat.float :=
  match x with
  | Some v =>
      if PrimFloat.is_nan v || PrimFloat.is_zero v then Number_of_nat 0
      else v
  | None => Number_of_nat 0
  end.

(** [projects.reduce((sum, project) => sum + f(project), 0)] *)
Definition sumBy (f : Project → PrimFloat.float) (projects : list Project)
  : PrimFloat.float :=
  fold_left (λ sum project, PrimFloat.add sum (f project)) projects
    (Number_of_nat 0).

Definition weeklySummaryOf (pf : Platform) (projects : list Project)
  : Candidate :=
  let now := clock pf in
  let weekAgo := now - 7 * 24 * 60 * 60 * 1000 in
  let completedThisWeek := List.filter (completedSince pf weekAgo) projects in
  let inProgress := List.filter isInProgress projects in
  let overdue := List.filter (isOverdue pf) projects in
  let totalBudget := sumBy (λ p, orZero (budget p)) projects in
  let avgProgress :=
    if (0 <? length projects)%nat
    then Math_round pf
           (PrimFloat.div (sumBy (λ p, orZero (progress p)) projects)
              (Number_of_nat (length projects)))
    else Number_of_nat 0 in
  let summaryMessage :=
    "üìä Resumo da semana:" +:+ nl
    +:+ "‚Ä¢ " +:+ pretty (length completedThisWeek) +:+ " projeto(s) conclu√≠do(s)" +:+ nl
    +:+ "‚Ä¢ " +:+ pretty (length inProgress) +:+ " em andamento  " +:+ nl
    +:+ "‚Ä¢ " +:+ pretty (length overdue) +:+ " atrasado(s)" +:+ nl
    +:+ "‚Ä¢ " +:+ pretty (length projects) +:+ " projetos totais" +:+ nl
    +:+ "‚Ä¢ Progresso m√©dio: " +:+ Number_toString pf avgProgress +:+ "%" +:+ nl
    +:+ "‚Ä¢ Or√ßamento total: R$ " +:+ toLocaleString pf totalBudget in
  {| c_type := type_email; c_category := cat_summary;
     c_title := "üìä Resumo Semanal - ProjectManager";
     c_message := summaryMessage;
     c_data := Some (DataSummary (length completedThisWeek)
                       (length inProgress) (length overdue)
                       (length projects) avgProgress totalBudget) |}.

(** Lines 331-384; here [sendNotification] is awaited. *)
Definition sendWeeklySummary (pf : Platform) (user : option User)
    (projects : list Project) : Op unit :=
  st ← gets react;
  if negb (weeklySummary (settings st)) || negb (signedIn user)
     || (length projects =? 0)%nat
  then mret tt
  else sendNotification pf user (weeklySummaryOf pf projects).

(** ** Event bridge (lines 390-428) *)

(** [event.detail] of a [projectUpdated] event. *)
Record ProjectUpdated := mkProjectUpdated {
  pu_projectId : option string;
  pu_action : string;
  pu_user : option User;
}.

(** [event.detail] of a [projectCreated] event. *)
Record ProjectCreated := mkProjectCreated {
  pc_project : Project;
  pc_user : option User;
}.

Definition teamUpdateNotice (detail : ProjectUpdated) (actionUser : User)
  : Candidate :=
  {| c_type := type_push; c_category := cat_team;
     c_title := "üë• Atualiza√ß√£o da Equipe";
     c_message := user_name actionUser +:+ " " +:+ pu_action detail
                  +:+ " um projeto.";
     c_data := Some (DataTeamUpdate (pu_projectId detail) actionUser) |}.

Definition projectCreatedNotice (detail : ProjectCreated) (creator : User)
  : Candidate :=
  {| c_type := type_push; c_category := cat_team;
     c_title := "üÜï Novo Projeto";
     c_message := user_name creator +:+ " criou o projeto " +:+ dq
                  +:+ project_name (pc_project detail) +:+ dq +:+ ".";
     c_data := Some (DataTeamCreated (project_id (pc_project detail))
                       creator) |}.

Definition handleProjectUpdate (pf : Platform) (u : User)
    (detail : ProjectUpdated) : Op unit :=
  match pu_user detail with
  | Some actionUser =>
      if negb (String.eqb (user_id actionUser) (user_id u))
      then detached (sendNotification pf (Some u)
                       (teamUpdateNotice detail actionUser))
      else mret tt
  | None => mret tt
  end.

Definition handleProjectCreated (pf : Platform) (u : User)
    (detail : ProjectCreated) : Op unit :=
  match pc_user detail with
  | Some creator =>
      if negb (String.eqb (user_id creator) (user_id u))
      then detached (sendNotification pf (Some u)
                       (projectCreatedNotice detail creator))
      else mret tt
  | None => mret tt
  end.

Inductive Signal :=
| projectUpdated (detail : ProjectUpdated)
| projectCreated (detail : ProjectCreated).

(** A signal dispatched on [window]: the listeners are registered only
    while the guard of line 391 lets the effect through. *)
Definition dispatchEvent (pf : Platform) (user : option User) (ev : Signal)
  : Op unit :=
  st ← gets react;
  match user with
  | Some u =>
      if teamUpdates (settings st) && initialized st then
        match ev with
        | projectUpdated detail => handleProjectUpdate pf u detail
        | projectCreated detail => handleProjectCreated pf u detail
        end
      else mret tt
  | None => mret tt
  end.

(** ** Vocabulary of the statements *)

(** Days from 1970-01-01 to a date of the proleptic Gregorian calendar, and
    the instant of its UTC midnight: what [new Date("YYYY-MM-DD").getTime()]
    is specified to be. *)
Definition days_from_civil (y m d : Z) : Z :=
  let y' := if (m <=? 2)%Z then y - 1 else y in
  let era := y' / 400 in
  let yoe := y' - era * 400 in
  let mp := (m + 9) mod 12 in
  let doy := (153 * mp + 2) / 5 + d - 1 in
  let doe := yoe * 365 + yoe / 4 - yoe / 100 + doy in
  era * 146097 + doe - 719468.

Definition utcMidnight (y m d : Z) : Z := days_from_civil y m d * msPerDay.

Definition digitValue (a : Ascii.ascii) : option Z :=
  let n := Z.of_nat (Ascii.nat_of_ascii a) in
  if (48 <=? n)%Z && (n <=? 57)%Z then Some (n - 48) else None.

Fixpoint numberOf (acc : Z) (s : string) : option Z :=
  match s with
  | EmptyString => Some acc
  | String a s' => v ← digitValue a; numberOf (10 * acc + v) s'
  end.

Definition hyphen : Ascii.ascii := Ascii.ascii_of_nat 45.

(** A date parser for the text form [YYYY-MM-DD] only; it serves as the
    [Date_parse] of the example platform below. *)
Definition parseIsoDate (s : string) : option Z :=
  if bool_decide (String.length s = 10%nat
                  ∧ String.get 4 s = Some hyphen
                  ∧ String.get 7 s = Some hyphen)
  then
    y ← numberOf 0 (String.substring 0 4 s);
    m ← numberOf 0 (String.substring 5 2 s);
    d ← numberOf 0 (String.substring 8 2 s);
    Some (utcMidnight y m d)
  else None.

(** The user that acts in a signal. *)
Definition actingUser (ev : Signal) : option User :=
  match ev with
  | projectUpdated detail => pu_user detail
  | projectCreated detail => pc_user detail
  end.

(** The entry that [sendNotification] builds in configuration [c]. *)
Definition nextNotification (pf : Platform) (notification : Candidate)
    (c : Config) : Notification :=
  let n := (notificationCounter (world c) + 1)%nat in
  newNotification notification (formatId (clock pf) n (randomSuffix pf n))
    (clock pf).

(** Whether that entry enters the ledger [prev]: its id is new and the
    write goes through. *)
Definition isInserted (pf : Platform) (newN : Notification)
    (prev : list Notification) : bool :=
  match findIndex (λ n, same_id n newN) prev with
  | Some _ => false
  | None => negb (quotaExceeded pf)
  end.

(** A sequence of calls of [sendNotification], each at its own instant. *)
Definition sendAll (u : User) (calls : list (Platform * Candidate)) : Op unit :=
  forEach calls (λ call, detached (sendNotification call.1 (Some u) call.2)).

(** The entries that a sequence of calls inserts, in insertion order. *)
Fixpoint insertedBy (u : User) (calls : list (Platform * Candidate))
    (c : Config) : list Notification :=
  match calls with
  | [] => []
  | call :: rest =>
      let newN := nextNotification call.1 call.2 c in
      let c' := (detached (sendNotification call.1 (Some u) call.2) c).2 in
      (if isInserted call.1 newN (notifications (react c)) then [newN] else [])
      ++ insertedBy u rest c'
  end.

(** The accounting that the unread badge relies on. *)
Definition unreadAccounted (c : Config) : Prop :=
  unreadCount (react c) = countUnread (notifications (react c)).

(** The settings that the initialisation effect installs. *)
Definition loadedSettings (pf : Platform) (u : User) (c : Config)
  : NotificationSettings :=
  syncPush (pushSupported (react c) && hasNotificationAPI pf)
    (permission (world c))
    (match localStorage (world c) !! settingsKey u with
     | Some (JSettings p) => spread (defaultSettings (world c)) p
     | _ => defaultSettings (world c)
     end).

(** Number functions for the example platforms.  [roundHalfUp] is
    [Math.round]: the nearest integer, halves towards plus infinity, computed
    on the exact value of the float.  [wholeNumberText] prints a whole
    number in decimal, as every platform does; it serves for the values the
    examples print. *)
Definition roundHalfUp (x : PrimFloat.float) : PrimFloat.float :=
  match FloatOps.Prim2SF x with
  | SpecFloat.S754_finite negative m e =>
      if (0 <=? e)%Z then x
      else
        let numerator := if negative then Z.neg m else Z.pos m in
        let r := (2 * numerator + 2 ^ (- e)) / 2 ^ (- e + 1) in
        if (r =? 0)%Z then
          if negative then PrimFloat.opp (Number_of_nat 0)
          else Number_of_nat 0
        else if (0 <? r)%Z then Number_of_nat (Z.to_nat r)
        else PrimFloat.opp (Number_of_nat (Z.to_nat (- r)))
  | _ => x
  end.

Definition wholeNumberText (x : PrimFloat.float) : string :=
  match FloatOps.Prim2SF x with
  | SpecFloat.S754_finite negative m e =>
      let magnitude :=
        if (0 <=? e)%Z then Z.shiftl (Z.pos m) e
        else Z.shiftr (Z.pos m) (- e) in
      pretty (if negative then - magnitude else magnitude)
  | SpecFloat.S754_zero _ => "0"
  | SpecFloat.S754_infinity negative =>
      if negative then "-Infinity" else "Infinity"
  | SpecFloat.S754_nan => "NaN"
  end.

(** ** An example session *)

Definition alice : User := {| user_id := "u-alice"; user_name := "Alice" |}.
Definition bob : User := {| user_id := "u-bob"; user_name := "Bob" |}.

(** A browser with push support, on 2024-06-10 at noon UTC, in which the
    user dismisses or refuses a permission prompt. *)
Definition chrome : Platform :=
  {| hasNotificationAPI := true; hasServiceWorker := true;
     clock := utcMidnight 2024 6 10 + 12 * 3600 * 1000;
     randomSuffix := λ _, "k3x9qa";
     quotaExceeded := false; requestAnswer := Some denied;
     alertThrows := false;
     Date_parse := parseIsoDate; Math_round := roundHalfUp;
     Number_toString := wholeNumberText;
     toLocaleString := wholeNumberText |}.

(** The same browser once its storage quota is exhausted. *)
Definition chromeFull : Platform :=
  {| hasNotificationAPI := true; hasServiceWorker := true;
     clock := clock chrome; randomSuffix := randomSuffix chrome;
     quotaExceeded := true; requestAnswer := requestAnswer chrome;
     alertThrows := false;
     Date_parse := parseIsoDate; Math_round := roundHalfUp;
     Number_toString := wholeNumberText;
     toLocaleString := wholeNumberText |}.

(** A browser without service workers: push is not supported. *)
Definition legacy : Platform :=
  {| hasNotificationAPI := true; hasServiceWorker := false;
     clock := clock chrome; randomSuffix := randomSuffix chrome;
     quotaExceeded := false; requestAnswer := None;
     alertThrows := false;
     Date_parse := parseIsoDate; Math_round := roundHalfUp;
     Number_toString := wholeNumberText;
     toLocaleString := wholeNumberText |}.

Definition bobStored : PartialSettings :=
  {| p_email := Some false; p_push := Some false;
     p_weeklySummary := Some true; p_taskReminders := Some false;
     p_deadlineAlerts := Some false; p_teamUpdates := Some false |}.

Definition welcome : Notification :=
  {| id := "notification-1-1-aaaaaa"; type := type_system;
     category := cat_project; title := "Welcome"; message := "Hello Bob";
     data := None; read := false; created_at := 1 |}.

(** The storage of a browser that Bob has used before. *)
Definition usedStore : gmap string Stored :=
  <[notificationsKey bob := JNotifications [welcome]]>
    (<[settingsKey bob := JSettings bobStored]> ∅).

(** The provider right after it mounted. *)
Definition mounted (pf : Platform) (store : gmap string Stored) : Config :=
  (supportEffect pf
     {| react := initialState (freshWorld store prompt_default);
        world := freshWorld store prompt_default |}).2.

(** Alice signed in and the initialisation effect ran for her. *)
Definition aliceSession (pf : Platform) : Config :=
  (initEffect pf (Some alice) (mounted pf usedStore)).2.

Definition notice : Candidate :=
  {| c_type := type_system; c_category := cat_project;
     c_title := "Build finished"; c_message := "All green"; c_data := None |}.

Definition projectDue (due : string) : Project :=
  {| project_id := "p-1"; project_name := "Website"; status := in_progress;
     due_date := Some due; deadline := None;
     budget := Some (Number_of_nat 1000);
     progress := Some (Number_of_nat 50); project_created_at := "2024-05-01";
     project_updated_at := None |}.

(** The update [{ push: true }]. *)
Definition enablePush : PartialSettings :=
  {| p_email := None; p_push := Some true; p_weeklySummary := None;
     p_taskReminders := None; p_deadlineAlerts := None;
     p_teamUpdates := None |}.

(** Bob's session, in which the stored welcome entry is in the ledger. *)
Definition bobSession : Config :=
  (initEffect chrome (Some bob) (mounted chrome usedStore)).2.

(** The same browser when the user accepts the permission prompt. *)
Definition chromeGranting : Platform :=
  {| hasNotificationAPI := true; hasServiceWorker := true;
     clock := clock chrome; randomSuffix := randomSuffix chrome;
     quotaExceeded := false; requestAnswer := Some granted;
     alertThrows := false;
     Date_parse := parseIsoDate; Math_round := roundHalfUp;
     Number_toString := wholeNumberText;
     toLocaleString := wholeNumberText |}.

(** The provider right after it mounted in a page whose permission is
    [perm]. *)
Definition mountedWith (pf : Platform) (store : gmap string Stored)
    (perm : Permission) : Config :=
  (supportEffect pf
     {| react := initialState (freshWorld store perm);
        world := freshWorld store perm |}).2.

(** A store in which Alice had switched push on. *)
Definition alicePushOn : gmap string Stored :=
  <[settingsKey alice := JSettings enablePush]> ∅.

(** ** The interface of the provider (lines 26-39) *)

(** A call of one of the functions that [useNotifications] hands out, or a
    signal arriving on [window]. *)
Inductive Call :=
| call_updateSettings (newSettings : PartialSettings)
| call_sendNotification (notification : Candidate)
| call_markAsRead (notificationId : string)
| call_markAllAsRead
| call_clearAll
| call_requestPushPermission
| call_scheduleDeadlineAlerts (projects : list Project)
| call_scheduleTaskReminders (projects : list Project)
| call_sendWeeklySummary (projects : list Project)
| call_signal (ev : Signal).

Definition perform (pf : Platform) (user : option User) (call : Call)
  : Op unit :=
  match call with
  | call_updateSettings newSettings => updateSettings pf user newSettings
  | call_sendNotification notification =>
      sendNotification pf user notification
  | call_markAsRead notificationId => markAsRead pf user notificationId
  | call_markAllAsRead => markAllAsRead pf user
  | call_clearAll => clearAll user
  | call_requestPushPermission => requestPushPermission pf;; mret tt
  | call_scheduleDeadlineAlerts projects =>
      scheduleDeadlineAlerts pf user projects
  | call_scheduleTaskReminders projects =>
      scheduleTaskReminders pf user projects
  | call_sendWeeklySummary projects => sendWeeklySummary pf user projects
  | call_signal ev => dispatchEvent pf user ev
  end.

(** The calls of a session, each at its own instant; the caller goes on
    when a call throws. *)
Definition session (user : option User) (steps : list (Platform * Call))
  : Op unit :=
  forEach steps (λ step, detached (perform step.1 user step.2)).

(** A page load: the module-level state is new, the store and the
    permission are the browser's; the provider mounts with no user yet (the
    session is restored asynchronously), then the initialisation effect
    runs for the signed-in user. *)
Definition pageLoad (pf : Platform) (u : User) (store : gmap string Stored)
    (perm : Permission) : Outcome unit * Config :=
  (supportEffect pf;; initEffect pf (Some u))
    {| react := initialState (freshWorld store perm);
       world := freshWorld store perm |}.

(** ** The producer of the signals (AppContext.tsx, lines 152-245) *)

(** The fields of [updates] that [updateProject] looks at. *)
Record ProjectUpdates := mkProjectUpdates {
  upd_status : option ProjectStatus;
  upd_assignee : bool;
}.

(** Lines 194-201 of AppContext.tsx. *)
Definition updateAction (updates : ProjectUpdates) : string :=
  match upd_status updates with
  | Some completed => "concluiu"
  | Some in_progress => "iniciou"
  | _ => if upd_assignee updates then "atribuiu" else "atualizou"
  end.

(** The signals that [createProject], [updateProject] and [deleteProject]
    dispatch for the signed-in user. *)
Definition createProjectSignal (user : User) (newProject : Project) : Signal :=
  projectCreated {| pc_project := newProject; pc_user := Some user |}.

Definition updateProjectSignal (user : User) (projectId : string)
    (updates : ProjectUpdates) : Signal :=
  projectUpdated {| pu_projectId := Some projectId;
                    pu_action := updateAction updates;
                    pu_user := Some user |}.

Definition deleteProjectSignal (user : User) (projectId : string) : Signal :=
  projectUpdated {| pu_projectId := Some projectId; pu_action := "removeu";
                    pu_user := Some user |}.

(** ** The notification menu (Navigation component) *)

(** [getTimeAgo]: [Math.floor] of the quotients; for an invalid date every
    comparison is false and the last branch prints the NaN. *)
Definition getTimeAgo (pf : Platform) (dateString : string) : string :=
  match Date_parse pf dateString with
  | None => "NaNd atrás"
  | Some date =>
      let diff := clock pf - date in
      let minutes := diff / (1000 * 60) in
      let hours := diff / (1000 * 60 * 60) in
      let days := diff / (1000 * 60 * 60 * 24) in
      if (minutes <? 1)%Z then "Agora"
      else if (minutes <? 60)%Z then pretty minutes +:+ "min atrás"
      else if (hours <? 24)%Z then pretty hours +:+ "h atrás"
      else pretty days +:+ "d atrás"
  end.

(** ** More vocabulary *)

(** Whether a project makes [scheduleDeadlineAlerts] send. *)
Definition alerts_for (pf : Platform) (project : Project) : bool :=
  negb (is_completed (status project))
  && match dueDateStr project with
     | None => false
     | Some s =>
         match daysDiff pf s with
         | None => false
         | Some d => (d =? 1)%Z || (d =? 3)%Z || (d <? 0)%Z
         end
     end.

(** The ledger is the stored sequence. *)
Definition storeMirrorsLedger (u : User) (c : Config) : Prop :=
  localStorage (world c) !! notificationsKey u
  = Some (JNotifications (notifications (react c)))
  ∨ (notifications (react c) = []
     ∧ localStorage (world c) !! notificationsKey u = None).

Definition writable (steps : list (Platform * Call)) : Prop :=
  Forall (λ step, quotaExceeded step.1 = false) steps.

(** An operation keeps a property of the configuration, whatever its
    outcome. *)
Definition preserves {A} (P : Config → Prop) (m : Op A) : Prop :=
  ∀ c, P c → P (m c).2.

(** The four ways in which the ledger changes. *)
Inductive ledgerMove : list Notification → list Notification → Prop :=
| move_insert (n : Notification) (l : list Notification) :
    id n ∉ map id l → read n = false →
    ledgerMove l (take capacity (n :: l))
| move_markAsRead (notificationId : string) (l : list Notification) :
    ledgerMove l
      (map (λ n, if String.eqb (id n) notificationId then mark_read n else n)
         l)
| move_markAllAsRead (l : list Notification) :
    ledgerMove l (map mark_read l)
| move_clearAll (l : list Notification) : ledgerMove l [].

(** The list that [markAsRead] computes (lines 214-216). *)
Definition markOne (notificationId : string) (l : list Notification)
  : list Notification :=
  map (λ n, if String.eqb (id n) notificationId then mark_read n else n) l.

(** The settings are the stored settings. *)
Definition storeMirrorsSettings (u : User) (c : Config) : Prop :=
  localStorage (world c) !! settingsKey u
  = Some (JSettings (to_partial (settings (react c)))).

(** A store whose two entries for Alice do not parse. *)
Definition corruptStore : gmap string Stored :=
  <[notificationsKey alice := JInvalid "[{"]>
    (<[settingsKey alice := JInvalid "{push"]> ∅).

(** Whether the mount effect finds push support (lines 75-77). *)
Definition supportsPush (pf : Platform) : bool :=
  hasNotificationAPI pf && hasServiceWorker pf.

(** Whether the ledger has an unread entry with this id. *)
Definition hasUnread (notificationId : string) (l : list Notification)
  : bool :=
  existsb (λ n, String.eqb (id n) notificationId && unread n) l.

(** An operation that returns in every configuration. *)
Definition returns (m : Op unit) : Prop := ∀ c, (m c).1 = Returned tt.

(** The instant a project is due, when it has one. *)
Definition dueInstant (pf : Platform) (project : Project) : option Z :=
  s ← dueDateStr project; Date_parse pf s.

(** Whether the event bridge sends for a signal: the guard of line 391 and
    the tests of lines 396 and 410. *)
Definition bridgeSends (st : State) (u : User) (ev : Signal) : bool :=
  teamUpdates (settings st) && initialized st
  && match actingUser ev with
     | Some actor => negb (String.eqb (user_id actor) (user_id u))
     | None => false
     end.

(** A string of decimal digits. *)
Fixpoint digitsOnly (s : string) : bool :=
  match s with
  | EmptyString => true
  | String a s' => bool_decide (is_Some (digitValue a)) && digitsOnly s'
  end.

(** Every id in the ledger was drawn in this page: it has the shape of
    line 60, a timestamp that is not negative and a counter value that has
    been used. *)
Definition idsDrawn (c : Config) : Prop :=
  ∀ n, n ∈ notifications (react c) →
    ∃ timestamp counter random,
      id n = formatId timestamp counter random
      ∧ (0 ≤ timestamp)%Z
      ∧ (counter ≤ notificationCounter (world c))%nat.

(** The native alert that mirrors an entry (lines 193-198). *)
Definition alertOf (n : Notification) : NativeAlert :=
  {| alert_title := title n; alert_body := message n; alert_tag := id n |}.

(** The alert that the deadline pass raises for a project, if any. *)
Definition alertCandidate (pf : Platform) (project : Project)
  : option Candidate :=
  if is_completed (status project) then None
  else
    s ← dueDateStr project;
    d ← daysDiff pf s;
    if (d =? 1)%Z then Some (dueTomorrowAlert project)
    else if (d =? 3)%Z then Some (dueIn3DaysAlert project)
    else if (d <? 0)%Z then Some (overdueAlert project d)
    else None.

(** [l'] is [l] itself, or [l] with at most [k] new unread entries put in
    front and the tail cut at the capacity. *)
Definition prepended (k : nat) (l l' : list Notification) : Prop :=
  l' = l
  ∨ ∃ news, news ≠ []
            ∧ (length news ≤ k)%nat
            ∧ Forall (λ n, read n = false) news
            ∧ l' = take capacity (news ++ l).

(** * Properties *)

Lemma config_eta (c : Config) :
  {| react := {| settings := settings (react c);
                 notifications := notifications (react c);
                 unreadCount := unreadCount (react c);
                 pushSupported := pushSupported (react c);
                 initialized := initialized (react c) |};
     world := world c |} = c.
Proof. destruct c as [[] ?]; reflexivity. Qed.

Ltac unfold_op :=
  unfold mbind, op_bind, mret, op_ret, gets, when, detached, try_catch, throw,
    modify_react, modify_world.

(** C10. With no user signed in, [updateSettings], [sendNotification],
    [markAsRead], [markAllAsRead], [clearAll] and the three evaluators
    return at once and leave the whole configuration as it was: settings,
    ledger, unread count and store. *)
Theorem signed_out_operations_are_noops
    (pf : Platform) (c : Config) (newSettings : PartialSettings)
    (notification : Candidate) (notificationId : string)
    (projects : list Project) :
  updateSettings pf None newSettings c = (Returned tt, c)
  ∧ sendNotification pf None notification c = (Returned tt, c)
  ∧ markAsRead pf None notificationId c = (Returned tt, c)
  ∧ markAllAsRead pf None c = (Returned tt, c)
  ∧ clearAll None c = (Returned tt, c)
  ∧ scheduleDeadlineAlerts pf None projects c = (Returned tt, c)
  ∧ scheduleTaskReminders pf None projects c = (Returned tt, c)
  ∧ sendWeeklySummary pf None projects c = (Returned tt, c).
Proof.
  repeat split; try reflexivity.
  - unfold scheduleDeadlineAlerts; unfold_op; cbn.
    destruct (deadlineAlerts _); reflexivity.
  - unfold scheduleTaskReminders; unfold_op; cbn.
    destruct (taskReminders _); reflexivity.
  - unfold sendWeeklySummary; unfold_op; cbn.
    destruct (weeklySummary _); reflexivity.
Qed.

(** C9. Self-action suppression: a [projectUpdated] or [projectCreated]
    signal whose acting user has the id of the current user emits nothing;
    the configuration, ledger and unread count included, is unchanged. *)
Theorem self_action_emits_nothing
    (pf : Platform) (u actor : User) (ev : Signal) (c : Config) :
  actingUser ev = Some actor →
  user_id actor = user_id u →
  dispatchEvent pf (Some u) ev c = (Returned tt, c).
Proof.
  intros Hact Hid. unfold dispatchEvent; unfold_op.
  destruct (teamUpdates _ && initialized _); [|reflexivity].
  destruct ev as [detail|detail]; cbn in Hact;
    unfold handleProjectUpdate, handleProjectCreated; rewrite Hact, Hid;
    rewrite String.eqb_refl; reflexivity.
Qed.

Lemma findIndex_Some_iff {A} (p : A → bool) (l : list A) :
  is_Some (findIndex p l) ↔ ∃ x, x ∈ l ∧ p x = true.
Proof.
  induction l as [|x l IH]; cbn.
  - split; [intros [? [=]] | intros (? & []%elem_of_nil & _)].
  - destruct (p x) eqn:Hp.
    + split; [intros _; exists x; split; [left|done] | eauto].
    + rewrite fmap_is_Some, IH. split.
      * intros (y & ? & ?); exists y; split; [by right|done].
      * intros (y & [->|?]%elem_of_cons & ?); [congruence|eauto].
Qed.

(** C5. Idempotent append: appending an entry whose id is already in the
    ledger returns normally and leaves the ledger, and everything else,
    unchanged, whether or not the store would have accepted a write. *)
Theorem append_duplicate_id_rejected
    (pf : Platform) (u : User) (newN : Notification) (c : Config) :
  (∃ n, n ∈ notifications (react c) ∧ id n = id newN) →
  appendUpdater pf u newN c = (Returned tt, c).
Proof.
  intros (n & Hin & Hid).
  assert (is_Some (findIndex (λ m, same_id m newN) (notifications (react c))))
    as [i Hi].
  { apply findIndex_Some_iff. exists n. split; [done|].
    unfold same_id. by apply String.eqb_eq. }
  unfold appendUpdater; unfold_op. rewrite Hi.
  unfold setNotifications; unfold_op. by rewrite config_eta.
Qed.

Lemma detached_returns (m : Op unit) (c : Config) :
  detached m c = (Returned tt, (detached m c).2).
Proof.
  unfold detached, try_catch. destruct (m c) as [[[]|e] c']; reflexivity.
Qed.

(** One call of [sendNotification] for a signed-in user, in full: it
    always returns; an id is drawn; the entry enters the ledger and the
    store when its id is new and the write goes through; a refused write
    surfaces from the render; the count grows by one; the alert is shown
    when it is allowed and can be built. *)
Lemma sendNotification_eq (pf : Platform) (u : User) (cand : Candidate)
    (c : Config) :
  sendNotification pf (Some u) cand c
  = (Returned tt,
     let newN := nextNotification pf cand c in
     let prev := notifications (react c) in
     let inserted := isInserted pf newN prev in
     let updated := take capacity (newN :: prev) in
     {| react :=
          {| settings := settings (react c);
             notifications := if inserted then updated else prev;
             unreadCount := (unreadCount (react c) + 1)%nat;
             pushSupported := pushSupported (react c);
             initialized := initialized (react c) |};
        world :=
          {| localStorage :=
               if inserted
               then <[notificationsKey u := JNotifications updated]>
                      (localStorage (world c))
               else localStorage (world c);
             storageLog :=
               if inserted
               then storageLog (world c)
                    ++ [(notificationsKey u, JNotifications updated)]
               else storageLog (world c);
             permission := permission (world c);
             notificationCounter := (notificationCounter (world c) + 1)%nat;
             defaultSettings := defaultSettings (world c);
             alerts :=
               if push (settings (react c)) && pushSupported (react c)
                  && is_granted (permission (world c))
                  && negb (alertThrows pf)
               then alerts (world c) ++ [alertOf newN]
               else alerts (world c);
             renderErrors :=
               match findIndex (λ n, same_id n newN) prev with
               | Some _ => renderErrors (world c)
               | None =>
                   if quotaExceeded pf
                   then renderErrors (world c) ++ [QuotaExceededError]
                   else renderErrors (world c)
               end |} |}).
Proof.
  unfold sendNotification, generateUniqueNotificationId, appendUpdater,
    applyUpdater, isInserted, nextNotification, alertOf,
    setNotificationCounter, setItem, setNotifications, setUnreadCount,
    newNativeAlert.
  unfold_op. cbn.
  destruct (findIndex _ _); cbn;
    [|destruct (quotaExceeded pf); cbn];
    (destruct (push _ && _ && _); cbn;
     [destruct (alertThrows pf); cbn|]); reflexivity.
Qed.

(** The ledger after one call of [sendNotification]. *)
Lemma sendNotification_ledger (pf : Platform) (u : User) (cand : Candidate)
    (c : Config) :
  notifications (react (sendNotification pf (Some u) cand c).2)
  = if isInserted pf (nextNotification pf cand c) (notifications (react c))
    then take capacity (nextNotification pf cand c :: notifications (react c))
    else notifications (react c).
Proof. rewrite sendNotification_eq. reflexivity. Qed.

(** The call never throws, so detaching it changes nothing. *)
Lemma detached_sendNotification (pf : Platform) (u : User) (cand : Candidate)
    (c : Config) :
  detached (sendNotification pf (Some u) cand) c
  = sendNotification pf (Some u) cand c.
Proof.
  unfold detached, try_catch. rewrite sendNotification_eq. reflexivity.
Qed.

Lemma detached_sendNotification_ledger pf u cand c :
  notifications (react (detached (sendNotification pf (Some u) cand) c).2)
  = notifications (react (sendNotification pf (Some u) cand c).2).
Proof.
  unfold detached, try_catch.
  destruct (sendNotification pf (Some u) cand c) as [[[]|e] c']; reflexivity.
Qed.

Lemma take_app_take_le {A} (l k : list A) :
  ∀ n m, (n ≤ m)%nat → take n (l ++ take m k) = take n (l ++ k).
Proof.
  induction l as [|x l IH]; intros n m Hnm; cbn.
  - rewrite take_take. f_equal. lia.
  - destruct n as [|n]; [reflexivity|]. cbn. f_equal. apply IH. lia.
Qed.

Lemma take_app_take {A} (n : nat) (l k : list A) :
  take n (l ++ take n k) = take n (l ++ k).
Proof. by apply take_app_take_le. Qed.

Lemma sendAll_ledger (u : User) (calls : list (Platform * Candidate)) :
  ∀ c, notifications (react c) = take capacity (notifications (react c)) →
  notifications (react (sendAll u calls c).2)
  = take capacity (rev (insertedBy u calls c) ++ notifications (react c)).
Proof.
  induction calls as [|[pf cand] calls IH]; intros c Hc.
  - exact Hc.
  - unfold sendAll. cbn [forEach insertedBy fst snd].
    unfold mbind at 1, op_bind at 1.
    rewrite detached_returns.
    set (c1 := (detached (sendNotification pf (Some u) cand) c).2).
    assert (Hc1 : notifications (react c1)
       = if isInserted pf (nextNotification pf cand c) (notifications (react c))
         then take capacity (nextNotification pf cand c :: notifications (react c))
         else notifications (react c)).
    { unfold c1. rewrite detached_sendNotification_ledger.
      apply sendNotification_ledger. }
    fold (sendAll u calls). rewrite IH.
    + rewrite Hc1. destruct (isInserted _ _ _).
      * rewrite take_app_take. rewrite rev_app_distr. cbn [rev app].
        rewrite <- app_assoc. reflexivity.
      * rewrite app_nil_l. reflexivity.
    + rewrite Hc1. destruct (isInserted _ _ _); [|exact Hc].
      rewrite take_take. reflexivity.
Qed.

(** C6. Capacity invariant: after any sequence of calls of
    [sendNotification] from the first render, the ledger has at most 50
    entries and is exactly the 50 most recently inserted ones, newest
    first; what was evicted is the rest of the insertion history, that is
    the oldest entries, dropped from the tail. *)
Theorem ledger_keeps_newest_fifty
    (u : User) (calls : list (Platform * Candidate)) (w : World) :
  let start := {| react := initialState w; world := w |} in
  let ledger := notifications (react (sendAll u calls start).2) in
  (length ledger ≤ 50)%nat
  ∧ ledger = take 50 (rev (insertedBy u calls start))
  ∧ rev (insertedBy u calls start)
    = (ledger ++ drop 50 (rev (insertedBy u calls start)))%list.
Proof.
  intros start ledger.
  assert (H : ledger = take 50 (rev (insertedBy u calls start))).
  { unfold ledger. rewrite sendAll_ledger by reflexivity.
    cbn [start react initialState notifications]. by rewrite app_nil_r. }
  split; [|split].
  - rewrite H, length_take. lia.
  - exact H.
  - rewrite H. symmetry. apply take_drop.
Qed.

(** ** Settings manager *)

Lemma setItem_ok (pf : Platform) (key : string) (v : Stored) (c : Config) :
  quotaExceeded pf = false →
  setItem pf key v c
  = (Returned tt,
     {| react := react c;
        world := {| localStorage := <[key := v]> (localStorage (world c));
                    storageLog := storageLog (world c) ++ [(key, v)];
                    permission := permission (world c);
                    notificationCounter := notificationCounter (world c);
                    defaultSettings := defaultSettings (world c);
                    alerts := alerts (world c);
                    renderErrors := renderErrors (world c) |} |}).
Proof. intros Hq. unfold setItem. rewrite Hq. reflexivity. Qed.

Lemma setItem_full (pf : Platform) (key : string) (v : Stored) (c : Config) :
  quotaExceeded pf = true →
  setItem pf key v c = (Thrown QuotaExceededError, c).
Proof. intros Hq. unfold setItem. rewrite Hq. reflexivity. Qed.

(** C7. Permission rollback: on a platform that supports push, when the
    permission request is not granted, an update that sets [push] to true
    returns normally with [push] false in the final settings, and exactly
    two writes of the settings reach the store: the value with [push] true,
    then the same value with [push] false. *)
Theorem permission_rollback
    (pf : Platform) (u : User) (newSettings : PartialSettings) (c : Config) :
  pushSupported (react c) = true →
  quotaExceeded pf = false →
  p_push newSettings = Some true →
  requestAnswer pf ≠ Some granted →
  ∃ c' enabled,
    updateSettings pf (Some u) newSettings c = (Returned tt, c')
    ∧ enabled = spread (settings (react c)) newSettings
    ∧ push enabled = true
    ∧ settings (react c') = with_push false enabled
    ∧ push (settings (react c')) = false
    ∧ storageLog (world c')
      = (storageLog (world c)
         ++ [(settingsKey u, JSettings (to_partial enabled));
             (settingsKey u, JSettings (to_partial (with_push false enabled)))])%list
    ∧ localStorage (world c') !! settingsKey u
      = Some (JSettings (to_partial (with_push false enabled))).
Proof.
  intros Hsup Hq Hpush Hdeny.
  unfold updateSettings, requestPushPermission, setSettings, setPermission.
  unfold_op. rewrite !setItem_ok by exact Hq. cbn.
  rewrite Hpush, Hsup. cbn. rewrite ?Hsup. cbn.
  destruct (requestAnswer pf) as [[]|] eqn:Hans; [congruence| | |];
    cbn; rewrite !setItem_ok by exact Hq; cbn;
    (eexists; eexists; split; [reflexivity|]; cbn;
     repeat split;
     [ unfold spread; rewrite Hpush; reflexivity
     | rewrite <- app_assoc; reflexivity
     | apply lookup_insert_eq ]).
Qed.

Lemma permission_rollback_witness :
  ∃ c' enabled,
    updateSettings chrome (Some alice)
      {| p_email := None; p_push := Some true; p_weeklySummary := None;
         p_taskReminders := None; p_deadlineAlerts := None;
         p_teamUpdates := None |} (aliceSession chrome) = (Returned tt, c')
    ∧ enabled = spread (settings (react (aliceSession chrome)))
        {| p_email := None; p_push := Some true; p_weeklySummary := None;
           p_taskReminders := None; p_deadlineAlerts := None;
           p_teamUpdates := None |}
    ∧ push enabled = true
    ∧ settings (react c') = with_push false enabled
    ∧ push (settings (react c')) = false
    ∧ storageLog (world c')
      = (storageLog (world (aliceSession chrome))
         ++ [(settingsKey alice, JSettings (to_partial enabled));
             (settingsKey alice,
              JSettings (to_partial (with_push false enabled)))])%list
    ∧ localStorage (world c') !! settingsKey alice
      = Some (JSettings (to_partial (with_push false enabled))).
Proof.
  apply (permission_rollback chrome alice); [reflexivity.. | discriminate].
Defined.

(** ** Persistent store *)

(** What a refused write does to each writer, for every configuration.
    [updateSettings], [markAsRead] and [markAllAsRead] call [setItem] in
    their own body: they end with its exception, after their state update,
    with the store untouched.  In [sendNotification] the write sits in the
    ledger updater: the call returns, the ledger keeps its value, and the
    exception surfaces from the render when the id is new. *)
Lemma failed_write_outcomes
    (pf : Platform) (u : User) (newSettings : PartialSettings)
    (notificationId : string) (notification : Candidate) (c : Config) :
  quotaExceeded pf = true →
  (∃ c', updateSettings pf (Some u) newSettings c
         = (Thrown QuotaExceededError, c')
         ∧ settings (react c') = spread (settings (react c)) newSettings
         ∧ world c' = world c)
  ∧ (∃ c', markAsRead pf (Some u) notificationId c
           = (Thrown QuotaExceededError, c')
           ∧ notifications (react c')
             = map (λ n, if String.eqb (id n) notificationId
                         then mark_read n else n) (notifications (react c))
           ∧ unreadCount (react c') = countUnread (notifications (react c'))
           ∧ world c' = world c)
  ∧ (∃ c', markAllAsRead pf (Some u) c = (Thrown QuotaExceededError, c')
           ∧ notifications (react c')
             = map mark_read (notifications (react c))
           ∧ unreadCount (react c') = 0%nat
           ∧ world c' = world c)
  ∧ (sendNotification pf (Some u) notification c).1 = Returned tt
  ∧ notifications (react (sendNotification pf (Some u) notification c).2)
    = notifications (react c)
  ∧ localStorage (world (sendNotification pf (Some u) notification c).2)
    = localStorage (world c)
  ∧ (findIndex (λ n, same_id n (nextNotification pf notification c))
       (notifications (react c)) = None →
     renderErrors (world (sendNotification pf (Some u) notification c).2)
     = (renderErrors (world c) ++ [QuotaExceededError])%list).
Proof.
  intros Hq. split; [|split; [|split]].
  - unfold updateSettings, setSettings. unfold_op.
    rewrite setItem_full by exact Hq. cbn. eexists. repeat split.
  - unfold markAsRead, setNotifications, setUnreadCount. unfold_op.
    rewrite setItem_full by exact Hq. cbn. eexists. repeat split.
  - unfold markAllAsRead, setNotifications, setUnreadCount. unfold_op.
    rewrite setItem_full by exact Hq. cbn. eexists. repeat split.
  - rewrite sendNotification_eq. cbn [fst snd react world notifications
      localStorage renderErrors]. unfold isInserted. rewrite Hq.
    destruct (findIndex _ _); repeat split; intros; congruence.
Qed.

(** C2 on the code.  Bob's ledger holds the unread welcome entry and the
    store refuses writes.  [markAsRead], [markAllAsRead] and
    [updateSettings] end with the exception of the write instead of
    returning; [markAsRead] has marked the entry in memory while the store
    still holds it unread.  [sendNotification] returns, but its entry does
    not reach the ledger and the exception surfaces from the render. *)
Theorem unguarded_write_reaches_caller :
  (markAsRead chromeFull (Some bob) "notification-1-1-aaaaaa" bobSession).1
  = Thrown QuotaExceededError
  ∧ notifications
      (react (markAsRead chromeFull (Some bob) "notification-1-1-aaaaaa"
                bobSession).2)
    = [mark_read welcome]
  ∧ localStorage
      (world (markAsRead chromeFull (Some bob) "notification-1-1-aaaaaa"
                bobSession).2) !! notificationsKey bob
    = Some (JNotifications [welcome])
  ∧ (markAllAsRead chromeFull (Some bob) bobSession).1
    = Thrown QuotaExceededError
  ∧ (updateSettings chromeFull (Some bob) enablePush bobSession).1
    = Thrown QuotaExceededError
  ∧ (sendNotification chromeFull (Some bob) notice bobSession).1
    = Returned tt
  ∧ notifications
      (react (sendNotification chromeFull (Some bob) notice bobSession).2)
    = [welcome]
  ∧ renderErrors
      (world (sendNotification chromeFull (Some bob) notice bobSession).2)
    = [QuotaExceededError].
Proof. repeat split; vm_compute; reflexivity. Qed.

(** When the write goes through, the operations return. *)
Lemma writes_succeed_operations_return
    (pf : Platform) (u : User) (notificationId : string) (c : Config) :
  quotaExceeded pf = false →
  (markAsRead pf (Some u) notificationId c).1 = Returned tt
  ∧ (markAllAsRead pf (Some u) c).1 = Returned tt.
Proof.
  intros Hq. split.
  - unfold markAsRead, setNotifications, setUnreadCount. unfold_op.
    rewrite setItem_ok by exact Hq. reflexivity.
  - unfold markAllAsRead, setNotifications, setUnreadCount. unfold_op.
    rewrite setItem_ok by exact Hq. reflexivity.
Qed.

(** ** Push flag and platform permission *)

(** Without push support the update keeps [push] true although no
    permission was ever granted. *)
Lemma push_enabled_without_grant :
  pushSupported (react (aliceSession legacy)) = false
  ∧ push (settings (react (updateSettings legacy (Some alice) enablePush
                             (aliceSession legacy)).2)) = true
  ∧ permission (world (updateSettings legacy (Some alice) enablePush
                         (aliceSession legacy)).2) ≠ granted.
Proof. repeat split. discriminate. Qed.

Lemma syncPush_granted (s : NotificationSettings) :
  push (syncPush true granted s) = true.
Proof. unfold syncPush. destruct (push s) eqn:Hs; [exact Hs | reflexivity]. Qed.

Lemma syncPush_denied (s : NotificationSettings) :
  push (syncPush true denied s) = false.
Proof. reflexivity. Qed.

Lemma initEffect_settings (pf : Platform) (u : User) (c : Config) :
  initialized (react c) = false →
  settings (react (initEffect pf (Some u) c).2) = loadedSettings pf u c.
Proof.
  intros Hinit.
  unfold loadedSettings, initEffect, getItem, setItem, setSettings,
    setNotifications, setUnreadCount, setInitialized, assignDefaultSettings.
  unfold_op. rewrite Hinit. cbn.
  destruct (localStorage (world c) !! settingsKey u) as [[]|]; cbn;
    destruct (quotaExceeded pf); cbn; try reflexivity;
    destruct (_ !! notificationsKey u) as [[]|]; cbn; try reflexivity;
    destruct (negb _); reflexivity.
Qed.

(** The [push] setting and the permission after an update that sets
    [push] to true, when the store accepts the writes. *)
Lemma updateSettings_push_on (pf : Platform) (u : User)
    (newSettings : PartialSettings) (c : Config) :
  quotaExceeded pf = false →
  p_push newSettings = Some true →
  push (settings (react (updateSettings pf (Some u) newSettings c).2))
  = (if pushSupported (react c)
     then match requestAnswer pf with Some granted => true | _ => false end
     else true)
  ∧ permission (world (updateSettings pf (Some u) newSettings c).2)
    = (if pushSupported (react c)
       then match requestAnswer pf with
            | Some p => p
            | None => permission (world c)
            end
       else permission (world c)).
Proof.
  intros Hq Hpush.
  unfold updateSettings, requestPushPermission, setSettings, setPermission.
  unfold_op. rewrite !setItem_ok by exact Hq. cbn.
  rewrite Hpush. destruct (pushSupported (react c)) eqn:Hsup; cbn;
    rewrite ?Hsup; cbn.
  - destruct (requestAnswer pf) as [[]|]; cbn;
      rewrite ?setItem_ok by exact Hq; cbn; try (split; reflexivity).
    unfold spread. rewrite Hpush. split; reflexivity.
  - unfold spread. rewrite Hpush. split; reflexivity.
Qed.

(** C3, as the code has it.  While the store accepts the writes, an update
    that sets [push] to true ends, where push is supported, with [push]
    true and the permission granted when the permission request is
    granted, and with [push] reverted to false when the request is refused
    or fails; where push is not supported no permission is asked and
    [push] stays true.  The initialisation, when it runs where push is
    supported, ends with [push] false when the permission is denied and
    with [push] true when it is granted. *)
Theorem push_flag_and_permission
    (u : User) (newSettings : PartialSettings)
    (pfG : Platform) (cG : Config) (pfR : Platform) (cR : Config)
    (pfU : Platform) (cU : Config) (pfD : Platform) (cD : Config)
    (pfI : Platform) (cI : Config) :
  p_push newSettings = Some true →
  (* an update where the request is granted *)
  quotaExceeded pfG = false →
  pushSupported (react cG) = true →
  requestAnswer pfG = Some granted →
  (* an update where the request is refused or fails *)
  quotaExceeded pfR = false →
  pushSupported (react cR) = true →
  requestAnswer pfR ≠ Some granted →
  (* an update where push is not supported *)
  quotaExceeded pfU = false →
  pushSupported (react cU) = false →
  (* an initialisation with the permission denied *)
  initialized (react cD) = false →
  pushSupported (react cD) && hasNotificationAPI pfD = true →
  permission (world cD) = denied →
  (* an initialisation with the permission granted *)
  initialized (react cI) = false →
  pushSupported (react cI) && hasNotificationAPI pfI = true →
  permission (world cI) = granted →
  (push (settings (react (updateSettings pfG (Some u) newSettings cG).2))
   = true
   ∧ permission (world (updateSettings pfG (Some u) newSettings cG).2)
     = granted)
  ∧ push (settings (react (updateSettings pfR (Some u) newSettings cR).2))
    = false
  ∧ (push (settings (react (updateSettings pfU (Some u) newSettings cU).2))
     = true
     ∧ permission (world (updateSettings pfU (Some u) newSettings cU).2)
       = permission (world cU))
  ∧ push (settings (react (initEffect pfD (Some u) cD).2)) = false
  ∧ push (settings (react (initEffect pfI (Some u) cI).2)) = true.
Proof.
  intros Hpush HqG HsG HaG HqR HsR HaR HqU HsU HiD HsD HpD HiI HsI HpI.
  split; [|split; [|split; [|split]]].
  - destruct (updateSettings_push_on pfG u newSettings cG HqG Hpush)
      as [-> ->].
    by rewrite HsG, HaG.
  - destruct (updateSettings_push_on pfR u newSettings cR HqR Hpush)
      as [-> _].
    rewrite HsR. by destruct (requestAnswer pfR) as [[]|].
  - destruct (updateSettings_push_on pfU u newSettings cU HqU Hpush)
      as [-> ->].
    by rewrite HsU.
  - rewrite initEffect_settings by exact HiD.
    unfold loadedSettings. rewrite HsD, HpD. apply syncPush_denied.
  - rewrite initEffect_settings by exact HiI.
    unfold loadedSettings. rewrite HsI, HpI. apply syncPush_granted.
Qed.

Lemma push_flag_and_permission_witness :
  (push (settings (react (updateSettings chromeGranting (Some alice)
                            enablePush (aliceSession chrome)).2)) = true
   ∧ permission (world (updateSettings chromeGranting (Some alice)
                          enablePush (aliceSession chrome)).2) = granted)
  ∧ push (settings (react (updateSettings chrome (Some alice) enablePush
                             (aliceSession chrome)).2)) = false
  ∧ (push (settings (react (updateSettings legacy (Some alice) enablePush
                              (aliceSession legacy)).2)) = true
     ∧ permission (world (updateSettings legacy (Some alice) enablePush
                            (aliceSession legacy)).2)
       = permission (world (aliceSession legacy)))
  ∧ push (settings (react (initEffect chrome (Some alice)
                             (mountedWith chrome alicePushOn denied)).2))
    = false
  ∧ push (settings (react (initEffect chrome (Some alice)
                             (mountedWith chrome usedStore granted)).2))
    = true.
Proof.
  apply (push_flag_and_permission alice enablePush
           chromeGranting (aliceSession chrome)
           chrome (aliceSession chrome)
           legacy (aliceSession legacy)
           chrome (mountedWith chrome alicePushOn denied)
           chrome (mountedWith chrome usedStore granted));
    first [reflexivity | discriminate].
Defined.

(** ** Deadline alerts *)

Lemma ceil_div_eq (a b k : Z) :
  0 < b → (k - 1) * b < a ≤ k * b → ceil_div a b = k.
Proof.
  intros Hb [Hlo Hhi]. unfold ceil_div.
  rewrite <- (Z.div_unique (- a) b (- k) (k * b - a)); lia.
Qed.

Lemma daysDiff_eq (pf : Platform) (s : string) (due k : Z) :
  Date_parse pf s = Some due →
  (k - 1) * msPerDay < due - clock pf ≤ k * msPerDay →
  daysDiff pf s = Some k.
Proof.
  intros Hparse Hrange. unfold daysDiff. rewrite Hparse. cbn.
  f_equal. apply ceil_div_eq; [reflexivity | exact Hrange].
Qed.

Lemma deadlineAlertsFor_days (pf : Platform) (user : option User)
    (project : Project) (s : string) (d : Z) :
  status project ≠ completed →
  due_date project = Some s → s ≠ EmptyString →
  daysDiff pf s = Some d →
  deadlineAlertsFor pf user project
  = (when (d =? 1)%Z
       (detached (sendNotification pf user (dueTomorrowAlert project)));;
     when (d =? 3)%Z
       (detached (sendNotification pf user (dueIn3DaysAlert project)));;
     when (d <? 0)%Z
       (detached (sendNotification pf user (overdueAlert project d)))).
Proof.
  intros Hstatus Hdue Hs Hdays. unfold deadlineAlertsFor, dueDateStr, or_else.
  destruct (status project); try congruence; cbn; rewrite Hdue;
    (destruct s; [congruence|]); cbn; rewrite Hdays; reflexivity.
Qed.

(** C8. Deadline math: with [deadlineAlerts] enabled and the clock anywhere
    in the UTC day 2024-06-10, the evaluator run on a single non-completed
    project due 2024-06-11 makes exactly one call of [sendNotification],
    with category deadline and the due-tomorrow message; run on a single
    non-completed project due 2024-06-05 it makes exactly one call, with
    the overdue message for 5 day(s).  In both cases the ledger receives
    that one entry (when its id is new and the write goes through) and
    nothing else. *)
Theorem deadline_math
    (pf : Platform) (u : User) (soon late : Project) (c : Config) :
  deadlineAlerts (settings (react c)) = true →
  utcMidnight 2024 6 10 ≤ clock pf < utcMidnight 2024 6 11 →
  status soon ≠ completed → due_date soon = Some "2024-06-11" →
  status late ≠ completed → due_date late = Some "2024-06-05" →
  Date_parse pf "2024-06-11" = Some (utcMidnight 2024 6 11) →
  Date_parse pf "2024-06-05" = Some (utcMidnight 2024 6 5) →
  (scheduleDeadlineAlerts pf (Some u) [soon] c
   = detached (sendNotification pf (Some u) (dueTomorrowAlert soon)) c
   ∧ c_category (dueTomorrowAlert soon) = cat_deadline
   ∧ c_message (dueTomorrowAlert soon)
     = "O projeto " +:+ dq +:+ project_name soon +:+ dq
       +:+ " vence amanh√£!"
   ∧ notifications (react (scheduleDeadlineAlerts pf (Some u) [soon] c).2)
     = let entry := nextNotification pf (dueTomorrowAlert soon) c in
       if isInserted pf entry (notifications (react c))
       then take capacity (entry :: notifications (react c))
       else notifications (react c))
  ∧ (scheduleDeadlineAlerts pf (Some u) [late] c
     = detached (sendNotification pf (Some u) (overdueAlert late (-5))) c
     ∧ c_category (overdueAlert late (-5)) = cat_deadline
     ∧ c_message (overdueAlert late (-5))
       = "O projeto " +:+ dq +:+ project_name late +:+ dq
         +:+ " est√° 5 dia(s) atrasado."
     ∧ notifications (react (scheduleDeadlineAlerts pf (Some u) [late] c).2)
       = let entry := nextNotification pf (overdueAlert late (-5)) c in
         if isInserted pf entry (notifications (react c))
         then take capacity (entry :: notifications (react c))
         else notifications (react c)).
Proof.
  intros Hon Hnow Hs1 Hd1 Hs2 Hd2 Hp1 Hp2.
  assert (E10 : utcMidnight 2024 6 10 = 1717977600000) by reflexivity.
  assert (E11 : utcMidnight 2024 6 11 = 1718064000000) by reflexivity.
  assert (E05 : utcMidnight 2024 6 5 = 1717545600000) by reflexivity.
  assert (Eday : msPerDay = 86400000) by reflexivity.
  assert (Hsoon : scheduleDeadlineAlerts pf (Some u) [soon] c
     = detached (sendNotification pf (Some u) (dueTomorrowAlert soon)) c).
  { unfold scheduleDeadlineAlerts. unfold mbind at 1, op_bind at 1, gets.
    rewrite Hon. cbn [negb signedIn orb length Nat.eqb forEach].
    rewrite (deadlineAlertsFor_days pf (Some u) soon "2024-06-11" 1);
      [|assumption|assumption|discriminate|].
    - change (1 =? 1)%Z with true. change (1 =? 3)%Z with false.
      change (1 <? 0)%Z with false. cbn [when].
      unfold mbind, op_bind, mret, op_ret.
      rewrite detached_returns. reflexivity.
    - apply (daysDiff_eq pf _ (utcMidnight 2024 6 11)); [assumption|].
      rewrite E11, Eday. lia. }
  assert (Hlate : scheduleDeadlineAlerts pf (Some u) [late] c
     = detached (sendNotification pf (Some u) (overdueAlert late (-5))) c).
  { unfold scheduleDeadlineAlerts. unfold mbind at 1, op_bind at 1, gets.
    rewrite Hon. cbn [negb signedIn orb length Nat.eqb forEach].
    rewrite (deadlineAlertsFor_days pf (Some u) late "2024-06-05" (-5));
      [|assumption|assumption|discriminate|].
    - change (-5 =? 1)%Z with false. change (-5 =? 3)%Z with false.
      change (-5 <? 0)%Z with true. cbn [when].
      unfold mbind, op_bind, mret, op_ret.
      rewrite detached_returns. reflexivity.
    - apply (daysDiff_eq pf _ (utcMidnight 2024 6 5)); [assumption|].
      rewrite E05, Eday. lia. }
  split; (split; [assumption|]); (split; [reflexivity|]);
    (split; [reflexivity|]).
  - rewrite Hsoon, detached_sendNotification_ledger.
    apply sendNotification_ledger.
  - rewrite Hlate, detached_sendNotification_ledger.
    apply sendNotification_ledger.
Qed.

Lemma deadline_math_witness :
  (scheduleDeadlineAlerts chrome (Some alice) [projectDue "2024-06-11"]
     (aliceSession chrome)
   = detached (sendNotification chrome (Some alice)
                 (dueTomorrowAlert (projectDue "2024-06-11")))
       (aliceSession chrome)
   ∧ c_category (dueTomorrowAlert (projectDue "2024-06-11")) = cat_deadline
   ∧ c_message (dueTomorrowAlert (projectDue "2024-06-11"))
     = "O projeto " +:+ dq +:+ project_name (projectDue "2024-06-11") +:+ dq
       +:+ " vence amanh√£!"
   ∧ notifications
       (react (scheduleDeadlineAlerts chrome (Some alice)
                 [projectDue "2024-06-11"] (aliceSession chrome)).2)
     = let entry := nextNotification chrome
                      (dueTomorrowAlert (projectDue "2024-06-11"))
                      (aliceSession chrome) in
       if isInserted chrome entry
            (notifications (react (aliceSession chrome)))
       then take capacity
              (entry :: notifications (react (aliceSession chrome)))
       else notifications (react (aliceSession chrome)))
  ∧ (scheduleDeadlineAlerts chrome (Some alice) [projectDue "2024-06-05"]
       (aliceSession chrome)
     = detached (sendNotification chrome (Some alice)
                   (overdueAlert (projectDue "2024-06-05") (-5)))
         (aliceSession chrome)
     ∧ c_category (overdueAlert (projectDue "2024-06-05") (-5))
       = cat_deadline
     ∧ c_message (overdueAlert (projectDue "2024-06-05") (-5))
       = "O projeto " +:+ dq +:+ project_name (projectDue "2024-06-05")
         +:+ dq +:+ " est√° 5 dia(s) atrasado."
     ∧ notifications
         (react (scheduleDeadlineAlerts chrome (Some alice)
                   [projectDue "2024-06-05"] (aliceSession chrome)).2)
       = let entry := nextNotification chrome
                        (overdueAlert (projectDue "2024-06-05") (-5))
                        (aliceSession chrome) in
         if isInserted chrome entry
              (notifications (react (aliceSession chrome)))
         then take capacity
                (entry :: notifications (react (aliceSession chrome)))
         else notifications (react (aliceSession chrome))).
Proof.
  apply (deadline_math chrome alice (projectDue "2024-06-11")
           (projectDue "2024-06-05") (aliceSession chrome));
    first [ reflexivity | discriminate
          | vm_compute; split; [discriminate | reflexivity] ].
Defined.

(** ** Unread accounting *)

Lemma countUnread_mark_all (l : list Notification) :
  countUnread (map mark_read l) = 0%nat.
Proof. induction l as [|n l IH]; [reflexivity | exact IH]. Qed.

Lemma markAsRead_accounted (pf : Platform) (u : User) (nid : string)
    (c : Config) :
  unreadAccounted (markAsRead pf (Some u) nid c).2.
Proof.
  unfold unreadAccounted, markAsRead, setItem, setNotifications,
    setUnreadCount.
  unfold_op. destruct (quotaExceeded pf); reflexivity.
Qed.

Lemma markAllAsRead_accounted (pf : Platform) (u : User) (c : Config) :
  unreadAccounted (markAllAsRead pf (Some u) c).2.
Proof.
  unfold unreadAccounted, markAllAsRead, setItem, setNotifications,
    setUnreadCount.
  unfold_op. destruct (quotaExceeded pf); cbn -[countUnread];
    by rewrite countUnread_mark_all.
Qed.

Lemma clearAll_accounted (u : User) (c : Config) :
  unreadAccounted (clearAll (Some u) c).2.
Proof. reflexivity. Qed.

(** The counter after a call of [sendNotification] that returns: one more,
    whatever happened to the ledger. *)
Lemma sendNotification_unreadCount (pf : Platform) (u : User)
    (cand : Candidate) (c : Config) (c' : Config) :
  sendNotification pf (Some u) cand c = (Returned tt, c') →
  unreadCount (react c') = S (unreadCount (react c)).
Proof.
  rewrite sendNotification_eq. intros [= <-]. cbn. lia.
Qed.

(** Below capacity, a new entry keeps the accounting. *)
Lemma sendNotification_accounted_below_capacity (pf : Platform) (u : User)
    (cand : Candidate) (c c' : Config) :
  unreadAccounted c →
  (length (notifications (react c)) < capacity)%nat →
  isInserted pf (nextNotification pf cand c) (notifications (react c)) = true →
  sendNotification pf (Some u) cand c = (Returned tt, c') →
  unreadAccounted c'.
Proof.
  unfold unreadAccounted. intros Hacc Hlen Hins Hrun.
  rewrite (sendNotification_unreadCount _ _ _ _ _ Hrun), Hacc.
  replace c' with (sendNotification pf (Some u) cand c).2
    by (rewrite Hrun; reflexivity).
  rewrite sendNotification_ledger, Hins.
  rewrite take_ge by (cbn [length]; lia). reflexivity.
Qed.

(** A rejected duplicate still counts as unread. *)
Lemma sendNotification_duplicate_overcounts (pf : Platform) (u : User)
    (cand : Candidate) (c : Config) (i : nat) :
  unreadAccounted c →
  findIndex (λ n, same_id n (nextNotification pf cand c))
    (notifications (react c)) = Some i →
  let c' := (sendNotification pf (Some u) cand c).2 in
  notifications (react c') = notifications (react c)
  ∧ unreadCount (react c') = S (countUnread (notifications (react c'))).
Proof.
  intros Hacc Hdup c'. unfold c'. unfold unreadAccounted in Hacc.
  rewrite sendNotification_eq. cbn [snd react notifications unreadCount].
  unfold isInserted. rewrite Hdup. rewrite Hacc. unfold countUnread.
  split; first [reflexivity | lia].
Qed.

(** C1 on the code: fifty notifications sent in a fresh session keep the
    unread count equal to the number of unread entries; the fifty-first
    evicts an unread entry from the tail and still adds one to the count,
    which then reads 51 for a ledger of 50 unread entries. *)
Theorem unread_count_drifts_at_capacity :
  unreadAccounted
    (sendAll alice (replicate 50 (chrome, notice)) (aliceSession chrome)).2
  ∧ length (notifications (react
      (sendAll alice (replicate 51 (chrome, notice))
         (aliceSession chrome)).2)) = 50%nat
  ∧ countUnread (notifications (react
      (sendAll alice (replicate 51 (chrome, notice))
         (aliceSession chrome)).2)) = 50%nat
  ∧ unreadCount (react
      (sendAll alice (replicate 51 (chrome, notice))
         (aliceSession chrome)).2) = 51%nat
  ∧ ¬ unreadAccounted
      (sendAll alice (replicate 51 (chrome, notice)) (aliceSession chrome)).2.
Proof.
  unfold unreadAccounted. repeat split; try (vm_compute; reflexivity).
  vm_compute. discriminate.
Qed.

(** ** Initialisation *)

Lemma initEffect_noop_when_initialized (pf : Platform) (user : option User)
    (c : Config) :
  initialized (react c) = true →
  initEffect pf user c = (Returned tt, c).
Proof.
  intros Hinit. unfold initEffect. unfold_op. rewrite Hinit.
  destruct user; reflexivity.
Qed.

(** C4 on the code: once the effect has run for Alice, a switch to Bob
    leaves everything as it is, although the store holds Bob's settings and
    notifications; the provider keeps Alice's settings and an empty ledger,
    where an initialisation for Bob would have installed his. *)
Theorem initialization_not_rerun_for_second_user :
  initialized (react (aliceSession chrome)) = true
  ∧ initEffect chrome (Some bob) (aliceSession chrome)
    = (Returned tt, aliceSession chrome)
  ∧ localStorage (world (aliceSession chrome)) !! settingsKey bob
    = Some (JSettings bobStored)
  ∧ localStorage (world (aliceSession chrome)) !! notificationsKey bob
    = Some (JNotifications [welcome])
  ∧ settings (react (aliceSession chrome)) = defaultSettings0
  ∧ notifications (react (aliceSession chrome)) = []
  ∧ settings (react (initEffect chrome (Some bob)
                       (mounted chrome usedStore)).2)
    = spread defaultSettings0 bobStored
  ∧ notifications (react (initEffect chrome (Some bob)
                            (mounted chrome usedStore)).2)
    = [welcome]
  ∧ spread defaultSettings0 bobStored ≠ defaultSettings0.
Proof.
  split; [reflexivity|]. split.
  { apply initEffect_noop_when_initialized. reflexivity. }
  repeat split; try (vm_compute; reflexivity). discriminate.
Qed.

(** ** Witnesses *)

Lemma self_action_emits_nothing_witness :
  dispatchEvent chrome (Some alice)
    (projectUpdated {| pu_projectId := Some "p-1"; pu_action := "atualizou";
                       pu_user := Some alice |})
    (aliceSession chrome)
  = (Returned tt, aliceSession chrome).
Proof.
  apply (self_action_emits_nothing chrome alice alice); reflexivity.
Defined.

Lemma append_duplicate_id_rejected_witness :
  appendUpdater chromeFull bob (mark_read welcome) bobSession
  = (Returned tt, bobSession).
Proof.
  apply (append_duplicate_id_rejected chromeFull bob (mark_read welcome)
           bobSession).
  exists welcome. split; [|reflexivity].
  vm_compute. left.
Defined.

(** * Further properties of the provider and its callers *)

(** ** Deduplication by id *)

Lemma same_id_true (a b : Notification) : same_id a b = true ↔ id a = id b.
Proof. unfold same_id. apply String.eqb_eq. Qed.

Lemma same_id_false (a b : Notification) : same_id a b = false ↔ id a ≠ id b.
Proof. unfold same_id. apply String.eqb_neq. Qed.

Lemma findIndex_None_iff {A} (p : A → bool) (l : list A) :
  findIndex p l = None ↔ ∀ x, x ∈ l → p x = false.
Proof.
  rewrite eq_None_not_Some, findIndex_Some_iff. split.
  - intros H x Hx. destruct (p x) eqn:Hp; [|done]. destruct H; eauto.
  - intros H (x & Hx & Hp). rewrite (H x Hx) in Hp. discriminate.
Qed.

Lemma indexed_from_S {A} (i : nat) (l : list A) :
  indexed_from (S i) l = map (λ e, (S e.1, e.2)) (indexed_from i l).
Proof.
  revert i. induction l as [|x l IH]; intros i; cbn; [done|].
  by rewrite IH.
Qed.

(** The entries kept are the head and, of the rest, the kept entries with
    another id. *)
Lemma uniqueById_cons (x : Notification) (l : list Notification) :
  uniqueById (x :: l)
  = x :: List.filter (λ n, negb (same_id x n)) (uniqueById l).
Proof.
  unfold uniqueById. cbn [indexed_from List.filter findIndex].
  assert (Hx : same_id x x = true) by (by apply same_id_true).
  rewrite Hx. cbn [bool_decide decide_rel]. rewrite bool_decide_eq_true_2 by done.
  cbn [map snd]. f_equal.
  rewrite indexed_from_S.
  generalize (indexed_from 0 l) as il. intros il.
  induction il as [|[i n] il IH]; [done|].
  cbn [map List.filter fst snd].
  destruct (same_id x n) eqn:Hxn; cbn [negb].
  - rewrite bool_decide_eq_false_2 by discriminate.
    rewrite IH. destruct (bool_decide _); cbn [map snd List.filter];
      rewrite ?Hxn; reflexivity.
  - rewrite (bool_decide_ext (Some (S i) = S <$> findIndex (λ m, same_id m n) l)
               (Some i = findIndex (λ m, same_id m n) l)).
    2:{ destruct (findIndex _ l); cbn; split; congruence. }
    destruct (bool_decide _); cbn [map snd List.filter];
      rewrite ?Hxn; cbn [negb]; by rewrite IH.
Qed.

Lemma elem_of_filter_bool {A} (p : A → bool) (l : list A) (x : A) :
  x ∈ List.filter p l ↔ x ∈ l ∧ p x = true.
Proof. rewrite !list_elem_of_In. apply filter_In. Qed.

Lemma uniqueById_elem_of (l : list Notification) (n : Notification) :
  n ∈ uniqueById l → n ∈ l.
Proof.
  revert n. induction l as [|x l IH]; intros n.
  - intros []%elem_of_nil.
  - rewrite uniqueById_cons. intros [->|Hn]%elem_of_cons; [left|].
    apply elem_of_filter_bool in Hn as [Hn _]. right. by apply IH.
Qed.

Lemma uniqueById_ids_complete (l : list Notification) (n : Notification) :
  n ∈ l → ∃ m, m ∈ uniqueById l ∧ id m = id n.
Proof.
  induction l as [|x l IH]; [intros []%elem_of_nil|].
  rewrite uniqueById_cons.
  intros [->|Hn]%elem_of_cons.
  - exists x. split; [left|done].
  - destruct (same_id x n) eqn:Hxn.
    + exists x. split; [left|]. by apply same_id_true.
    + destruct (IH Hn) as (m & Hm & Hid). exists m. split; [|done].
      right. apply elem_of_filter_bool. split; [done|].
      unfold same_id in *. rewrite Hid. by rewrite Hxn.
Qed.

Lemma NoDup_ids_filter (p : Notification → bool) (l : list Notification) :
  NoDup (map id l) → NoDup (map id (List.filter p l)).
Proof.
  induction l as [|x l IH]; cbn; [done|].
  intros [Hx Hl]%NoDup_cons. destruct (p x); cbn; [|by apply IH].
  apply NoDup_cons. split; [|by apply IH].
  intros (m & Hid & Hm)%list_elem_of_fmap.
  apply elem_of_filter_bool in Hm as [Hm _].
  apply Hx. apply list_elem_of_fmap. eauto.
Qed.

Lemma uniqueById_NoDup (l : list Notification) : NoDup (map id (uniqueById l)).
Proof.
  induction l as [|x l IH]; [constructor|].
  rewrite uniqueById_cons. cbn [map]. apply NoDup_cons. split.
  - intros (m & Hid & Hm)%list_elem_of_fmap.
    apply elem_of_filter_bool in Hm as [_ Hm].
    apply negb_true_iff, same_id_false in Hm. congruence.
  - by apply NoDup_ids_filter.
Qed.


Lemma filter_length_le {A} (p : A → bool) (l : list A) :
  (length (List.filter p l) ≤ length l)%nat.
Proof. induction l as [|x l IH]; cbn; [lia|]. destruct (p x); cbn; lia. Qed.

Lemma filter_length_eq {A} (p : A → bool) (l : list A) :
  length (List.filter p l) = length l → List.filter p l = l.
Proof.
  induction l as [|x l IH]; cbn; [done|].
  pose proof (filter_length_le p l). destruct (p x); cbn; [|lia].
  intros [= H']. f_equal. by apply IH.
Qed.

Lemma uniqueById_length_le (l : list Notification) :
  (length (uniqueById l) ≤ length l)%nat.
Proof.
  induction l as [|x l IH]; [done|]. rewrite uniqueById_cons. cbn [length].
  pose proof (filter_length_le (λ n, negb (same_id x n)) (uniqueById l)). lia.
Qed.

Lemma uniqueById_length_eq (l : list Notification) :
  length (uniqueById l) = length l → uniqueById l = l.
Proof.
  induction l as [|x l IH]; [done|]. rewrite uniqueById_cons. cbn [length].
  pose proof (filter_length_le (λ n, negb (same_id x n)) (uniqueById l)).
  pose proof (uniqueById_length_le l). intros [= H'].
  rewrite filter_length_eq by lia. f_equal. apply IH. lia.
Qed.

(** X1. The deduplication of the load path keeps exactly one entry per id:
    the result has pairwise distinct ids, contains only stored entries,
    and every stored id is still present. *)
Theorem uniqueById_one_entry_per_id (parsed : list Notification) :
  NoDup (map id (uniqueById parsed))
  ∧ (∀ n, n ∈ uniqueById parsed → n ∈ parsed)
  ∧ (∀ n, n ∈ parsed → ∃ m, m ∈ uniqueById parsed ∧ id m = id n).
Proof.
  split; [apply uniqueById_NoDup|]. split.
  - apply uniqueById_elem_of.
  - apply uniqueById_ids_complete.
Qed.

(** X2. Of several stored entries with one id the first in stored order is
    the one that survives, and entries keep their stored order: the result
    is the head followed by the deduplicated rest without the head's id. *)
Theorem uniqueById_keeps_first (x : Notification) (rest : list Notification) :
  uniqueById (x :: rest)
  = x :: List.filter (λ n, negb (String.eqb (id x) (id n)))
           (uniqueById rest).
Proof. apply uniqueById_cons. Qed.

(** ** Storage keys *)

Lemma settingsKey_ne_notificationsKey (u v : User) :
  settingsKey u ≠ notificationsKey v.
Proof.
  unfold settingsKey, notificationsKey. intros H. injection H.
  intros; discriminate.
Qed.

Lemma settingsKey_inj (u v : User) :
  settingsKey u = settingsKey v → user_id u = user_id v.
Proof. unfold settingsKey. intros H. exact (String.app_inj _ _ _ H). Qed.

Lemma notificationsKey_inj (u v : User) :
  notificationsKey u = notificationsKey v → user_id u = user_id v.
Proof. unfold notificationsKey. intros H. exact (String.app_inj _ _ _ H). Qed.

(** ** What each operation does to the ledger and to the store *)

Lemma preserves_ret {A} (P : Config → Prop) (a : A) : preserves P (mret a).
Proof. intros c Hc. exact Hc. Qed.

Lemma preserves_bind {A B} (P : Config → Prop) (m : Op A) (f : A → Op B) :
  preserves P m → (∀ a, preserves P (f a)) → preserves P (m ≫= f).
Proof.
  intros Hm Hf c Hc. specialize (Hm c Hc).
  unfold mbind, op_bind. destruct (m c) as [[a|e] c']; [|exact Hm].
  apply Hf. exact Hm.
Qed.

Lemma preserves_gets {A} (P : Config → Prop) (f : Config → A) :
  preserves P (gets f).
Proof. intros c Hc. exact Hc. Qed.

Lemma preserves_detached (P : Config → Prop) (m : Op unit) :
  preserves P m → preserves P (detached m).
Proof.
  intros Hm c Hc. specialize (Hm c Hc).
  unfold detached, try_catch. destruct (m c) as [[a|e] c']; exact Hm.
Qed.

Lemma preserves_when (P : Config → Prop) (b : bool) (m : Op unit) :
  preserves P m → preserves P (when b m).
Proof. intros Hm. destruct b; [exact Hm | apply preserves_ret]. Qed.

Lemma preserves_forEach {A} (P : Config → Prop) (l : list A)
    (f : A → Op unit) :
  (∀ x, preserves P (f x)) → preserves P (forEach l f).
Proof.
  intros Hf. induction l as [|x l IH]; [apply preserves_ret|].
  cbn [forEach]. apply preserves_bind; [apply Hf | intros _; exact IH].
Qed.

(** The evaluators and the event bridge only read the state and call
    [sendNotification]. *)
Lemma senders_preserve (P : Config → Prop) (pf : Platform)
    (user : option User) :
  (∀ cand, preserves P (sendNotification pf user cand)) →
  (∀ projects, preserves P (scheduleDeadlineAlerts pf user projects))
  ∧ (∀ projects, preserves P (scheduleTaskReminders pf user projects))
  ∧ (∀ projects, preserves P (sendWeeklySummary pf user projects))
  ∧ (∀ ev, preserves P (dispatchEvent pf user ev)).
Proof.
  intros Hsend. repeat split; intros x.
  - unfold scheduleDeadlineAlerts. apply preserves_bind;
      [apply preserves_gets|]. intros st.
    destruct (_ || _ || _); [apply preserves_ret|].
    apply preserves_forEach. intros project. unfold deadlineAlertsFor.
    destruct (is_completed _); [apply preserves_ret|].
    destruct (dueDateStr _); [|apply preserves_ret].
    destruct (daysDiff _ _); [|apply preserves_ret].
    repeat (apply preserves_bind; [|intros _]);
      apply preserves_when, preserves_detached, Hsend.
  - unfold scheduleTaskReminders. apply preserves_bind;
      [apply preserves_gets|]. intros st.
    destruct (_ || _ || _); [apply preserves_ret|].
    apply preserves_when, preserves_detached, Hsend.
  - unfold sendWeeklySummary. apply preserves_bind;
      [apply preserves_gets|]. intros st.
    destruct (_ || _ || _); [apply preserves_ret | apply Hsend].
  - unfold dispatchEvent. apply preserves_bind;
      [apply preserves_gets|]. intros st.
    destruct user as [u|]; [|apply preserves_ret].
    destruct (_ && _); [|apply preserves_ret].
    destruct x as [detail|detail];
      unfold handleProjectUpdate, handleProjectCreated.
    + destruct (pu_user detail); [|apply preserves_ret].
      destruct (negb _); [|apply preserves_ret].
      apply preserves_detached, Hsend.
    + destruct (pc_user detail); [|apply preserves_ret].
      destruct (negb _); [|apply preserves_ret].
      apply preserves_detached, Hsend.
Qed.

Lemma session_preserves (P : Config → Prop) (good : Platform → Prop)
    (user : option User) :
  (∀ pf cand, good pf → preserves P (sendNotification pf user cand)) →
  (∀ pf nid, good pf → preserves P (markAsRead pf user nid)) →
  (∀ pf, good pf → preserves P (markAllAsRead pf user)) →
  preserves P (clearAll user) →
  (∀ pf p, good pf → preserves P (updateSettings pf user p)) →
  (∀ pf, good pf → preserves P (requestPushPermission pf)) →
  ∀ steps, Forall (λ step, good step.1) steps →
  preserves P (session user steps).
Proof.
  intros Hsend Hmark Hall Hclear Hupd Hreq steps Hgood.
  unfold session. induction Hgood as [|[pf call] steps Hpf _ IH];
    [apply preserves_ret|].
  cbn [forEach]. apply preserves_bind; [|intros _; exact IH].
  apply preserves_detached. cbn [fst snd] in *.
  destruct (senders_preserve P pf user (λ cand, Hsend pf cand Hpf))
    as (Hd & Ht & Hw & Hs).
  destruct call; cbn [perform]; auto.
  apply preserves_bind; [auto | intros _; apply preserves_ret].
Qed.

(** The state and store after each primitive operation. *)

Lemma sendNotification_signed_out (pf : Platform) (cand : Candidate)
    (c : Config) :
  sendNotification pf None cand c = (Returned tt, c).
Proof. reflexivity. Qed.

Lemma sendNotification_store (pf : Platform) (u : User) (cand : Candidate)
    (c : Config) :
  localStorage (world (sendNotification pf (Some u) cand c).2)
  = if isInserted pf (nextNotification pf cand c) (notifications (react c))
    then <[notificationsKey u :=
             JNotifications
               (take capacity
                  (nextNotification pf cand c :: notifications (react c)))]>
           (localStorage (world c))
    else localStorage (world c).
Proof. rewrite sendNotification_eq. reflexivity. Qed.

Lemma isInserted_fresh (pf : Platform) (n : Notification)
    (l : list Notification) :
  isInserted pf n l = true →
  (id n ∉ map id l) ∧ quotaExceeded pf = false.
Proof.
  unfold isInserted. destruct (findIndex _ _) eqn:Hf; [discriminate|].
  intros Hq%negb_true_iff. split; [|exact Hq].
  intros (m & Hid & Hm)%list_elem_of_fmap.
  rewrite findIndex_None_iff in Hf. specialize (Hf m Hm).
  apply same_id_false in Hf. congruence.
Qed.

Lemma markAsRead_effect (pf : Platform) (u : User) (nid : string)
    (c : Config) :
  notifications (react (markAsRead pf (Some u) nid c).2)
  = markOne nid (notifications (react c))
  ∧ localStorage (world (markAsRead pf (Some u) nid c).2)
    = (if quotaExceeded pf then localStorage (world c)
       else <[notificationsKey u :=
                JNotifications (markOne nid (notifications (react c)))]>
              (localStorage (world c))).
Proof.
  unfold markAsRead, setItem, setNotifications, setUnreadCount. unfold_op.
  destruct (quotaExceeded pf); split; reflexivity.
Qed.

Lemma markAllAsRead_effect (pf : Platform) (u : User) (c : Config) :
  notifications (react (markAllAsRead pf (Some u) c).2)
  = map mark_read (notifications (react c))
  ∧ localStorage (world (markAllAsRead pf (Some u) c).2)
    = (if quotaExceeded pf then localStorage (world c)
       else <[notificationsKey u :=
                JNotifications (map mark_read (notifications (react c)))]>
              (localStorage (world c))).
Proof.
  unfold markAllAsRead, setItem, setNotifications, setUnreadCount. unfold_op.
  destruct (quotaExceeded pf); split; reflexivity.
Qed.

Lemma updateSettings_effect (pf : Platform) (u : User) (p : PartialSettings)
    (c : Config) :
  notifications (react (updateSettings pf (Some u) p c).2)
  = notifications (react c)
  ∧ ∀ k, k ≠ settingsKey u →
      localStorage (world (updateSettings pf (Some u) p c).2) !! k
      = localStorage (world c) !! k.
Proof.
  unfold updateSettings, requestPushPermission, setItem, setSettings,
    setPermission.
  unfold_op. cbn.
  destruct (quotaExceeded pf); cbn; [split; [reflexivity|done]|].
  destruct (is_Some_true _ && _); cbn.
  2:{ split; [reflexivity|]. intros k Hk. by rewrite lookup_insert_ne. }
  destruct (negb (pushSupported _)); cbn.
  - split; [reflexivity|]. intros k Hk. by rewrite !lookup_insert_ne.
  - destruct (requestAnswer pf) as [[]|]; cbn;
      (split; [reflexivity|]); intros k Hk; by rewrite ?lookup_insert_ne.
Qed.

Lemma requestPushPermission_effect (pf : Platform) (c : Config) :
  react (requestPushPermission pf c).2 = react c
  ∧ localStorage (world (requestPushPermission pf c).2)
    = localStorage (world c).
Proof.
  unfold requestPushPermission, setPermission. unfold_op.
  destruct (negb _); [done|]. destruct (requestAnswer pf); done.
Qed.

Lemma clearAll_effect (u : User) (c : Config) :
  notifications (react (clearAll (Some u) c).2) = []
  ∧ unreadCount (react (clearAll (Some u) c).2) = 0%nat
  ∧ localStorage (world (clearAll (Some u) c).2)
    = delete (notificationsKey u) (localStorage (world c)).
Proof. repeat split. Qed.

(** ** The ledger over a session *)

Lemma perform_ledger_moves (l0 : list Notification) (user : option User)
    (steps : list (Platform * Call)) :
  preserves (λ c, rtc ledgerMove l0 (notifications (react c)))
    (session user steps).
Proof.
  apply (session_preserves _ (λ _, True)); [..|by apply Forall_true].
  - intros pf cand _ c Hc. destruct user as [u|]; [|exact Hc].
    rewrite sendNotification_ledger.
    destruct (isInserted _ _ _) eqn:Hins; [|exact Hc].
    eapply rtc_r; [exact Hc|].
    apply move_insert; [|reflexivity].
    by apply isInserted_fresh in Hins as [? _].
  - intros pf nid _ c Hc. destruct user as [u|]; [|exact Hc].
    destruct (markAsRead_effect pf u nid c) as [-> _].
    eapply rtc_r; [exact Hc | apply move_markAsRead].
  - intros pf _ c Hc. destruct user as [u|]; [|exact Hc].
    destruct (markAllAsRead_effect pf u c) as [-> _].
    eapply rtc_r; [exact Hc | apply move_markAllAsRead].
  - intros c Hc. destruct user as [u|]; [|exact Hc].
    eapply rtc_r; [exact Hc | apply move_clearAll].
  - intros pf p _ c Hc. destruct user as [u|]; [|exact Hc].
    by destruct (updateSettings_effect pf u p c) as [-> _].
  - intros pf _ c Hc.
    by destruct (requestPushPermission_effect pf c) as [-> _].
Qed.

Lemma map_id_markOne (nid : string) (l : list Notification) :
  map id (markOne nid l) = map id l.
Proof.
  unfold markOne. rewrite map_map. apply map_ext. intros n.
  by destruct (String.eqb _ _).
Qed.

Lemma map_id_mark_read (l : list Notification) :
  map id (map mark_read l) = map id l.
Proof. rewrite map_map. by apply map_ext. Qed.

Lemma ledgerMove_keeps_shape (l l' : list Notification) :
  ledgerMove l l' →
  (NoDup (map id l) → NoDup (map id l'))
  ∧ ((length l ≤ capacity)%nat → (length l' ≤ capacity)%nat).
Proof.
  intros [n k Hfresh _|nid k|k|k].
  - split.
    + intros Hk. rewrite <- firstn_map.
      apply (sublist_NoDup _ (map id (n :: k))); [|apply sublist_take].
      cbn [map]. by apply NoDup_cons.
    + intros _. rewrite length_take. lia.
  - fold (markOne nid k). rewrite map_id_markOne.
    unfold markOne. by rewrite length_map.
  - by rewrite map_id_mark_read, length_map.
  - split; intros _; [constructor | cbn; unfold capacity; lia].
Qed.

(** X4. The shape of the ledger is kept by every call of a session: ids
    that are pairwise distinct stay so, and a ledger of at most 50 entries
    stays at most 50 long. *)
Theorem session_keeps_ledger_shape (user : option User)
    (steps : list (Platform * Call)) (c : Config) :
  NoDup (map id (notifications (react c))) →
  (length (notifications (react c)) ≤ 50)%nat →
  NoDup (map id (notifications (react (session user steps c).2)))
  ∧ (length (notifications (react (session user steps c).2)) ≤ 50)%nat.
Proof.
  induction (perform_ledger_moves (notifications (react c)) user steps c
               (rtc_refl _ _)) as [l|l l' l'' Hmove _ IH].
  - done.
  - destruct (ledgerMove_keeps_shape _ _ Hmove) as [H1 H2]. auto.
Qed.

Lemma session_keeps_ledger_shape_witness :
  NoDup (map id (notifications (react
     (session (Some bob)
        [(chrome, call_sendNotification notice);
         (chromeFull, call_markAsRead "notification-1-1-aaaaaa");
         (chrome, call_scheduleDeadlineAlerts [projectDue "2024-06-11"])]
        bobSession).2)))
  ∧ (length (notifications (react
       (session (Some bob)
          [(chrome, call_sendNotification notice);
           (chromeFull, call_markAsRead "notification-1-1-aaaaaa");
           (chrome, call_scheduleDeadlineAlerts [projectDue "2024-06-11"])]
          bobSession).2)) ≤ 50)%nat.
Proof.
  apply (session_keeps_ledger_shape (Some bob) _ bobSession).
  - vm_compute. apply NoDup_singleton.
  - vm_compute. lia.
Defined.

(** ** The store over a session *)

Lemma session_store_mirror (u : User) (steps : list (Platform * Call)) :
  writable steps →
  preserves (storeMirrorsLedger u) (session (Some u) steps).
Proof.
  intros Hw.
  apply (session_preserves _ (λ pf, quotaExceeded pf = false));
    [..|exact Hw]; unfold storeMirrorsLedger.
  - intros pf cand Hq c Hc.
    rewrite sendNotification_ledger, sendNotification_store.
    destruct (isInserted _ _ _); [|exact Hc].
    left. apply lookup_insert_eq.
  - intros pf nid Hq c Hc.
    destruct (markAsRead_effect pf u nid c) as [-> ->]. rewrite Hq.
    left. apply lookup_insert_eq.
  - intros pf Hq c Hc.
    destruct (markAllAsRead_effect pf u c) as [-> ->]. rewrite Hq.
    left. apply lookup_insert_eq.
  - intros c Hc. destruct (clearAll_effect u c) as (-> & _ & ->).
    right. split; [reflexivity | apply lookup_delete_eq].
  - intros pf p Hq c Hc.
    destruct (updateSettings_effect pf u p c) as [-> Hstore].
    rewrite Hstore; [exact Hc|].
    intros H. by apply (settingsKey_ne_notificationsKey u u).
  - intros pf Hq c Hc.
    by destruct (requestPushPermission_effect pf c) as [-> ->].
Qed.

(** X5. Once the stored notifications are the ledger, they stay the
    ledger after every call of a session while the store accepts the
    writes: the entry under the user's notifications key is the ledger
    itself, or the ledger is empty and the key is absent.  A successful
    [markAsRead] or [markAllAsRead], and any [clearAll], bring the store to
    that state whatever it held before. *)
Theorem store_mirrors_ledger_in_session (u : User)
    (steps : list (Platform * Call)) (c : Config)
    (pfE : Platform) (cE : Config) (notificationId : string) :
  writable steps →
  storeMirrorsLedger u c →
  quotaExceeded pfE = false →
  storeMirrorsLedger u (session (Some u) steps c).2
  ∧ storeMirrorsLedger u (markAsRead pfE (Some u) notificationId cE).2
  ∧ storeMirrorsLedger u (markAllAsRead pfE (Some u) cE).2
  ∧ storeMirrorsLedger u (clearAll (Some u) cE).2.
Proof.
  intros Hw Hc Hq. split; [by apply session_store_mirror|].
  unfold storeMirrorsLedger. split; [|split].
  - destruct (markAsRead_effect pfE u notificationId cE) as [-> ->].
    rewrite Hq. left. apply lookup_insert_eq.
  - destruct (markAllAsRead_effect pfE u cE) as [-> ->].
    rewrite Hq. left. apply lookup_insert_eq.
  - destruct (clearAll_effect u cE) as (-> & _ & ->).
    right. split; [reflexivity | apply lookup_delete_eq].
Qed.

Lemma store_mirrors_ledger_in_session_witness :
  storeMirrorsLedger alice
    (session (Some alice)
       [(chrome, call_sendNotification notice);
        (chrome, call_markAllAsRead);
        (chrome, call_updateSettings enablePush)]
       (aliceSession chrome)).2
  ∧ storeMirrorsLedger alice
      (markAsRead chrome (Some alice) "notification-1-1-aaaaaa"
         (initEffect chrome (Some alice) (mounted chrome corruptStore)).2).2
  ∧ storeMirrorsLedger alice
      (markAllAsRead chrome (Some alice)
         (initEffect chrome (Some alice) (mounted chrome corruptStore)).2).2
  ∧ storeMirrorsLedger alice
      (clearAll (Some alice)
         (initEffect chrome (Some alice) (mounted chrome corruptStore)).2).2.
Proof.
  apply (store_mirrors_ledger_in_session alice _ (aliceSession chrome)
           chrome).
  - repeat constructor.
  - right. split; vm_compute; reflexivity.
  - reflexivity.
Defined.

Lemma session_store_frame (u : User) (k : string) (v : option Stored)
    (steps : list (Platform * Call)) :
  k ≠ settingsKey u → k ≠ notificationsKey u →
  preserves (λ c, localStorage (world c) !! k = v) (session (Some u) steps).
Proof.
  intros Hks Hkn.
  apply (session_preserves _ (λ _, True)); [..|by apply Forall_true].
  - intros pf cand _ c Hc. rewrite sendNotification_store.
    destruct (isInserted _ _ _); [|exact Hc]. by rewrite lookup_insert_ne.
  - intros pf nid _ c Hc.
    destruct (markAsRead_effect pf u nid c) as [_ ->].
    destruct (quotaExceeded pf); [exact Hc|]. by rewrite lookup_insert_ne.
  - intros pf _ c Hc.
    destruct (markAllAsRead_effect pf u c) as [_ ->].
    destruct (quotaExceeded pf); [exact Hc|]. by rewrite lookup_insert_ne.
  - intros c Hc. destruct (clearAll_effect u c) as (_ & _ & ->).
    by rewrite lookup_delete_ne.
  - intros pf p _ c Hc.
    destruct (updateSettings_effect pf u p c) as [_ Hstore].
    by rewrite Hstore.
  - intros pf _ c Hc.
    by destruct (requestPushPermission_effect pf c) as [_ ->].
Qed.

(** X6. A session of one user never touches what the store holds for a
    user with another id: that user's settings and notifications entries
    are after the session what they were before. *)
Theorem session_leaves_other_users_alone (u v : User)
    (steps : list (Platform * Call)) (c : Config) :
  user_id v ≠ user_id u →
  localStorage (world (session (Some u) steps c).2) !! settingsKey v
  = localStorage (world c) !! settingsKey v
  ∧ localStorage (world (session (Some u) steps c).2) !! notificationsKey v
    = localStorage (world c) !! notificationsKey v.
Proof.
  intros Hne. split.
  - apply (session_store_frame u (settingsKey v)
             (localStorage (world c) !! settingsKey v) steps);
      [| |reflexivity].
    + intros H%settingsKey_inj. done.
    + apply settingsKey_ne_notificationsKey.
  - apply (session_store_frame u (notificationsKey v)
             (localStorage (world c) !! notificationsKey v) steps);
      [| |reflexivity].
    + intros H. symmetry in H. by apply settingsKey_ne_notificationsKey in H.
    + intros H%notificationsKey_inj. done.
Qed.

Lemma session_leaves_other_users_alone_witness :
  localStorage (world (session (Some alice)
     [(chrome, call_sendNotification notice); (chrome, call_clearAll);
      (chrome, call_updateSettings enablePush)]
     (aliceSession chrome)).2) !! settingsKey bob
  = localStorage (world (aliceSession chrome)) !! settingsKey bob
  ∧ localStorage (world (session (Some alice)
       [(chrome, call_sendNotification notice); (chrome, call_clearAll);
        (chrome, call_updateSettings enablePush)]
       (aliceSession chrome)).2) !! notificationsKey bob
    = localStorage (world (aliceSession chrome)) !! notificationsKey bob.
Proof.
  apply (session_leaves_other_users_alone alice bob). discriminate.
Defined.

(** ** Loading *)

Lemma spread_to_partial (d s : NotificationSettings) :
  spread d (to_partial s) = s.
Proof. by destruct s. Qed.

(** The initialisation when the store accepts writes. *)
Lemma initEffect_writable (pf : Platform) (u : User) (c : Config) :
  initialized (react c) = false →
  quotaExceeded pf = false →
  let c' := (initEffect pf (Some u) c).2 in
  (initEffect pf (Some u) c).1 = Returned tt
  ∧ initialized (react c') = true
  ∧ settings (react c') = loadedSettings pf u c
  ∧ localStorage (world c') !! settingsKey u
    = Some (JSettings (to_partial (loadedSettings pf u c)))
  ∧ match localStorage (world c) !! notificationsKey u with
    | Some (JNotifications parsed) =>
        notifications (react c') = uniqueById parsed
        ∧ unreadCount (react c') = countUnread (uniqueById parsed)
        ∧ localStorage (world c') !! notificationsKey u
          = Some (JNotifications (uniqueById parsed))
    | other =>
        notifications (react c') = notifications (react c)
        ∧ unreadCount (react c') = unreadCount (react c)
        ∧ localStorage (world c') !! notificationsKey u = other
    end.
Proof.
  intros Hinit Hq c'. unfold c'. clear c'.
  assert (Hne : settingsKey u ≠ notificationsKey u)
    by apply settingsKey_ne_notificationsKey.
  unfold loadedSettings, initEffect, getItem, setItem, setSettings,
    setNotifications, setUnreadCount, setInitialized, assignDefaultSettings.
  unfold_op. rewrite Hinit, Hq. cbn -[uniqueById countUnread].
  destruct (localStorage (world c) !! settingsKey u) as [[]|];
    cbn -[uniqueById countUnread];
    rewrite !(lookup_insert_ne _ _ _ _ Hne);
    destruct (localStorage (world c) !! notificationsKey u) as [[|parsed|]|]
      eqn:Hn; cbn -[uniqueById countUnread];
    try (repeat split; first [ reflexivity | apply lookup_insert_eq
                             | by rewrite lookup_insert_ne ]).
  all: destruct (negb _) eqn:Hlen; cbn -[uniqueById countUnread];
    repeat split; try reflexivity; try apply lookup_insert_eq;
    try (rewrite lookup_insert_ne by (by apply not_eq_sym);
         apply lookup_insert_eq);
    try (rewrite lookup_insert_ne by done; rewrite Hn).
  all: apply negb_false_iff, Nat.eqb_eq, uniqueById_length_eq in Hlen;
    by rewrite Hlen.
Qed.

(** X7. Loading a stored notification list: the ledger is the stored list
    with later duplicates of an id removed, its ids are pairwise distinct,
    the unread count is the number of unread entries, and the store holds
    the repaired list. *)
Theorem load_repairs_and_recounts (pf : Platform) (u : User)
    (parsed : list Notification) (c : Config) :
  initialized (react c) = false →
  quotaExceeded pf = false →
  localStorage (world c) !! notificationsKey u
  = Some (JNotifications parsed) →
  notifications (react (initEffect pf (Some u) c).2) = uniqueById parsed
  ∧ NoDup (map id (notifications (react (initEffect pf (Some u) c).2)))
  ∧ unreadAccounted (initEffect pf (Some u) c).2
  ∧ storeMirrorsLedger u (initEffect pf (Some u) c).2.
Proof.
  intros Hinit Hq Hstored.
  destruct (initEffect_writable pf u c Hinit Hq) as (_ & _ & _ & _ & H).
  rewrite Hstored in H. destruct H as (Hl & Hu & Hs).
  unfold unreadAccounted, storeMirrorsLedger. rewrite Hl, Hu, Hs.
  repeat split; [apply uniqueById_NoDup | by left].
Qed.

Lemma load_repairs_and_recounts_witness :
  notifications (react (initEffect chrome (Some bob)
                          (mounted chrome usedStore)).2)
  = uniqueById [welcome]
  ∧ NoDup (map id (notifications (react (initEffect chrome (Some bob)
                                           (mounted chrome usedStore)).2)))
  ∧ unreadAccounted (initEffect chrome (Some bob)
                       (mounted chrome usedStore)).2
  ∧ storeMirrorsLedger bob (initEffect chrome (Some bob)
                              (mounted chrome usedStore)).2.
Proof.
  apply (load_repairs_and_recounts chrome bob [welcome]
           (mounted chrome usedStore)); vm_compute; reflexivity.
Defined.

(** X8. Corrupt entries are treated as absent: with unparsable text under
    both keys the initialisation returns normally, installs the defaults
    (synchronised with the permission), overwrites the settings entry with
    them, leaves ledger and unread count alone, and leaves the corrupt
    notifications entry in the store. *)
Theorem initialisation_fails_soft (pf : Platform) (u : User)
    (raw1 raw2 : string) (c : Config) :
  initialized (react c) = false →
  quotaExceeded pf = false →
  localStorage (world c) !! settingsKey u = Some (JInvalid raw1) →
  localStorage (world c) !! notificationsKey u = Some (JInvalid raw2) →
  (initEffect pf (Some u) c).1 = Returned tt
  ∧ initialized (react (initEffect pf (Some u) c).2) = true
  ∧ settings (react (initEffect pf (Some u) c).2)
    = syncPush (pushSupported (react c) && hasNotificationAPI pf)
        (permission (world c)) (defaultSettings (world c))
  ∧ storeMirrorsSettings u (initEffect pf (Some u) c).2
  ∧ notifications (react (initEffect pf (Some u) c).2)
    = notifications (react c)
  ∧ unreadCount (react (initEffect pf (Some u) c).2) = unreadCount (react c)
  ∧ localStorage (world (initEffect pf (Some u) c).2) !! notificationsKey u
    = Some (JInvalid raw2).
Proof.
  intros Hinit Hq Hs Hn.
  destruct (initEffect_writable pf u c Hinit Hq)
    as (Hret & Hi & Hset & Hstore & H).
  rewrite Hn in H. destruct H as (Hl & Hu & Hk).
  unfold storeMirrorsSettings. rewrite Hret, Hi, Hset, Hstore, Hl, Hu, Hk.
  unfold loadedSettings. rewrite Hs. repeat split.
Qed.

Lemma initialisation_fails_soft_witness :
  (initEffect chrome (Some alice) (mounted chrome corruptStore)).1
  = Returned tt
  ∧ initialized (react (initEffect chrome (Some alice)
                          (mounted chrome corruptStore)).2) = true
  ∧ settings (react (initEffect chrome (Some alice)
                       (mounted chrome corruptStore)).2)
    = syncPush (pushSupported (react (mounted chrome corruptStore))
                && hasNotificationAPI chrome)
        (permission (world (mounted chrome corruptStore)))
        (defaultSettings (world (mounted chrome corruptStore)))
  ∧ storeMirrorsSettings alice (initEffect chrome (Some alice)
                                  (mounted chrome corruptStore)).2
  ∧ notifications (react (initEffect chrome (Some alice)
                            (mounted chrome corruptStore)).2)
    = notifications (react (mounted chrome corruptStore))
  ∧ unreadCount (react (initEffect chrome (Some alice)
                          (mounted chrome corruptStore)).2)
    = unreadCount (react (mounted chrome corruptStore))
  ∧ localStorage (world (initEffect chrome (Some alice)
                           (mounted chrome corruptStore)).2)
      !! notificationsKey alice
    = Some (JInvalid "[{").
Proof.
  apply (initialisation_fails_soft chrome alice "{push" "[{"
           (mounted chrome corruptStore)); vm_compute; reflexivity.
Defined.

(** X9. A store that refuses the write stops the initialisation half-way:
    the settings are installed in memory, but the call ends with the
    exception, the stored notifications are not loaded, the store is
    unchanged and the provider does not count as initialised. *)
Theorem initialisation_aborts_on_full_store (pf : Platform) (u : User)
    (c : Config) :
  initialized (react c) = false →
  quotaExceeded pf = true →
  (initEffect pf (Some u) c).1 = Thrown QuotaExceededError
  ∧ settings (react (initEffect pf (Some u) c).2) = loadedSettings pf u c
  ∧ initialized (react (initEffect pf (Some u) c).2) = false
  ∧ notifications (react (initEffect pf (Some u) c).2)
    = notifications (react c)
  ∧ unreadCount (react (initEffect pf (Some u) c).2) = unreadCount (react c)
  ∧ localStorage (world (initEffect pf (Some u) c).2)
    = localStorage (world c).
Proof.
  intros Hinit Hq.
  unfold loadedSettings, initEffect, getItem, setItem, setSettings,
    setNotifications, setUnreadCount, setInitialized, assignDefaultSettings.
  unfold_op. rewrite Hinit, Hq. cbn.
  destruct (localStorage (world c) !! settingsKey u) as [[]|]; cbn;
    repeat split; exact Hinit.
Qed.

Lemma initialisation_aborts_on_full_store_witness :
  (initEffect chromeFull (Some bob) (mounted chromeFull usedStore)).1
  = Thrown QuotaExceededError
  ∧ settings (react (initEffect chromeFull (Some bob)
                       (mounted chromeFull usedStore)).2)
    = loadedSettings chromeFull bob (mounted chromeFull usedStore)
  ∧ initialized (react (initEffect chromeFull (Some bob)
                          (mounted chromeFull usedStore)).2) = false
  ∧ notifications (react (initEffect chromeFull (Some bob)
                            (mounted chromeFull usedStore)).2)
    = notifications (react (mounted chromeFull usedStore))
  ∧ unreadCount (react (initEffect chromeFull (Some bob)
                          (mounted chromeFull usedStore)).2)
    = unreadCount (react (mounted chromeFull usedStore))
  ∧ localStorage (world (initEffect chromeFull (Some bob)
                           (mounted chromeFull usedStore)).2)
    = localStorage (world (mounted chromeFull usedStore)).
Proof.
  apply (initialisation_aborts_on_full_store chromeFull bob
           (mounted chromeFull usedStore)); reflexivity.
Defined.

(** ** Reloading the page *)

Lemma pageLoad_eq (pf : Platform) (u : User) (store : gmap string Stored)
    (perm : Permission) :
  pageLoad pf u store perm
  = initEffect pf (Some u)
      {| react := {| settings := defaultSettings0; notifications := [];
                     unreadCount := 0%nat; pushSupported := supportsPush pf;
                     initialized := false |};
         world := freshWorld store perm |}.
Proof.
  unfold pageLoad, supportEffect, supportsPush, setPushSupported. unfold_op.
  destruct (hasNotificationAPI pf && hasServiceWorker pf); reflexivity.
Qed.




Lemma updateSettings_mirror (pf : Platform) (u : User) (p : PartialSettings)
    (c : Config) :
  quotaExceeded pf = false →
  storeMirrorsSettings u (updateSettings pf (Some u) p c).2.
Proof.
  intros Hq.
  unfold storeMirrorsSettings, updateSettings, requestPushPermission,
    setItem, setSettings, setPermission.
  unfold_op. rewrite Hq. cbn.
  destruct (is_Some_true _ && _); cbn; [|apply lookup_insert_eq].
  destruct (negb (pushSupported _)); cbn; [apply lookup_insert_eq|].
  destruct (requestAnswer pf) as [[]|]; cbn; apply lookup_insert_eq.
Qed.

Lemma sendNotification_settings (pf : Platform) (user : option User)
    (cand : Candidate) (c : Config) :
  settings (react (sendNotification pf user cand c).2) = settings (react c).
Proof.
  destruct user as [u|]; [|reflexivity].
  rewrite sendNotification_eq. reflexivity.
Qed.

Lemma markAsRead_settings (pf : Platform) (u : User) (nid : string)
    (c : Config) :
  settings (react (markAsRead pf (Some u) nid c).2) = settings (react c).
Proof.
  unfold markAsRead, setItem, setNotifications, setUnreadCount.
  unfold_op. by destruct (quotaExceeded pf).
Qed.

Lemma markAllAsRead_settings (pf : Platform) (u : User) (c : Config) :
  settings (react (markAllAsRead pf (Some u) c).2) = settings (react c).
Proof.
  unfold markAllAsRead, setItem, setNotifications, setUnreadCount.
  unfold_op. by destruct (quotaExceeded pf).
Qed.

Lemma session_settings_mirror (u : User) (steps : list (Platform * Call)) :
  writable steps →
  preserves (storeMirrorsSettings u) (session (Some u) steps).
Proof.
  intros Hw.
  assert (Hne : notificationsKey u ≠ settingsKey u).
  { intros H. symmetry in H. by apply settingsKey_ne_notificationsKey in H. }
  apply (session_preserves _ (λ pf, quotaExceeded pf = false));
    [..|exact Hw]; unfold storeMirrorsSettings.
  - intros pf cand Hq c Hc.
    rewrite sendNotification_settings, sendNotification_store.
    destruct (isInserted _ _ _); [|exact Hc]. by rewrite lookup_insert_ne.
  - intros pf nid Hq c Hc.
    rewrite markAsRead_settings.
    destruct (markAsRead_effect pf u nid c) as [_ ->]. rewrite Hq.
    by rewrite lookup_insert_ne.
  - intros pf Hq c Hc.
    rewrite markAllAsRead_settings.
    destruct (markAllAsRead_effect pf u c) as [_ ->]. rewrite Hq.
    by rewrite lookup_insert_ne.
  - intros c Hc.
    change (settings (react (clearAll (Some u) c).2))
      with (settings (react c)).
    destruct (clearAll_effect u c) as (_ & _ & ->).
    by rewrite lookup_delete_ne.
  - intros pf p Hq c _. by apply updateSettings_mirror.
  - intros pf Hq c Hc.
    by destruct (requestPushPermission_effect pf c) as [-> ->].
Qed.

(** X11. Round trip of the settings through the store.  Once the stored
    settings are the provider's settings, then after any session in which
    the store accepted the writes, a page load for the same user installs
    the settings the session ended with, up to the synchronisation of
    [push] with the permission of the reloaded page (forced to true when
    granted, to false when denied, where push is supported).  The stored
    settings are the provider's after an initialisation and after an
    update of the settings, when the store accepted the writes. *)
Theorem settings_survive_reload (u : User) (steps : list (Platform * Call))
    (c : Config) (pf : Platform) (perm : Permission)
    (pfI : Platform) (cI : Config)
    (pfU : Platform) (cU : Config) (newSettings : PartialSettings) :
  writable steps →
  storeMirrorsSettings u c →
  initialized (react cI) = false →
  quotaExceeded pfI = false →
  quotaExceeded pfU = false →
  settings
    (react (pageLoad pf u
              (localStorage (world (session (Some u) steps c).2)) perm).2)
  = syncPush (supportsPush pf && hasNotificationAPI pf) perm
      (settings (react (session (Some u) steps c).2))
  ∧ storeMirrorsSettings u (initEffect pfI (Some u) cI).2
  ∧ storeMirrorsSettings u (updateSettings pfU (Some u) newSettings cU).2.
Proof.
  intros Hw Hmirror HiI HqI HqU. split; [|split].
  - pose proof (session_settings_mirror u steps Hw c Hmirror) as Hm.
    unfold storeMirrorsSettings in Hm.
    rewrite pageLoad_eq, initEffect_settings by reflexivity.
    unfold loadedSettings.
    cbn [world localStorage freshWorld react pushSupported permission
         defaultSettings].
    rewrite Hm. by rewrite spread_to_partial.
  - destruct (initEffect_writable pfI u cI HiI HqI) as (_ & _ & Hs & Hst & _).
    unfold storeMirrorsSettings. by rewrite Hs, Hst.
  - by apply updateSettings_mirror.
Qed.

Lemma settings_survive_reload_witness :
  settings
    (react (pageLoad chrome alice
              (localStorage (world (session (Some alice)
                 [(chrome, call_updateSettings bobStored);
                  (chrome, call_sendNotification notice)]
                 (aliceSession chrome)).2)) prompt_default).2)
  = syncPush (supportsPush chrome && hasNotificationAPI chrome)
      prompt_default
      (settings (react (session (Some alice)
         [(chrome, call_updateSettings bobStored);
          (chrome, call_sendNotification notice)]
         (aliceSession chrome)).2))
  ∧ storeMirrorsSettings alice
      (initEffect chrome (Some alice) (mounted chrome corruptStore)).2
  ∧ storeMirrorsSettings alice
      (updateSettings chrome (Some alice) bobStored
         (aliceSession chromeFull)).2.
Proof.
  apply (settings_survive_reload alice _ (aliceSession chrome) chrome
           prompt_default chrome (mounted chrome corruptStore)
           chrome (aliceSession chromeFull) bobStored).
  - repeat constructor.
  - vm_compute. reflexivity.
  - reflexivity.
  - reflexivity.
  - reflexivity.
Defined.

(** ** Reading *)

Lemma countUnread_markOne_absent (nid : string) (l : list Notification) :
  nid ∉ map id l → markOne nid l = l.
Proof.
  induction l as [|n l IH]; [done|]. cbn.
  intros [Hn Hl]%not_elem_of_cons.
  apply not_eq_sym, String.eqb_neq in Hn. rewrite Hn. f_equal. by apply IH.
Qed.

Lemma countUnread_cons (n : Notification) (l : list Notification) :
  countUnread (n :: l)
  = ((if read n then 0 else 1) + countUnread l)%nat.
Proof. unfold countUnread, unread. cbn. by destruct (read n). Qed.

Lemma countUnread_markOne (nid : string) (l : list Notification) :
  NoDup (map id l) →
  (countUnread (markOne nid l) + (if hasUnread nid l then 1 else 0)
   = countUnread l)%nat.
Proof.
  induction l as [|n l IH]; [done|].
  cbn [map]. intros [Hn Hl]%NoDup_cons.
  change (markOne nid (n :: l))
    with ((if String.eqb (id n) nid then mark_read n else n)
          :: markOne nid l).
  cbn [hasUnread existsb]. fold (hasUnread nid l).
  destruct (String.eqb (id n) nid) eqn:Heq.
  - apply String.eqb_eq in Heq. subst nid.
    rewrite countUnread_markOne_absent by done.
    assert (hasUnread (id n) l = false) as ->.
    { unfold hasUnread. apply not_true_is_false.
      intros (m & Hm & Hp)%existsb_exists.
      apply andb_true_iff in Hp as [Hid%String.eqb_eq _].
      apply Hn. apply list_elem_of_fmap. exists m.
      split; [done | by apply list_elem_of_In]. }
    rewrite !countUnread_cons. unfold unread. cbn.
    destruct (read n); cbn; lia.
  - specialize (IH Hl). rewrite !countUnread_cons. cbn [andb orb]. lia.
Qed.

(** X12. What [markAsRead] does to the count: in a ledger with distinct
    ids the unread count afterwards is the number of unread entries before,
    less one when the id names an unread entry, and that same number when
    the id is unknown or its entry is already read; the ledger is untouched
    when the id is unknown.  This holds whether or not the write
    succeeds. *)
Theorem markAsRead_counts_down (pf : Platform) (u : User)
    (notificationId : string) (c : Config) :
  NoDup (map id (notifications (react c))) →
  (unreadCount (react (markAsRead pf (Some u) notificationId c).2)
   + (if hasUnread notificationId (notifications (react c)) then 1 else 0)
   = countUnread (notifications (react c)))%nat
  ∧ (notificationId ∉ map id (notifications (react c)) →
     notifications (react (markAsRead pf (Some u) notificationId c).2)
     = notifications (react c)).
Proof.
  intros Hnodup.
  pose proof (markAsRead_accounted pf u notificationId c) as Hacc.
  unfold unreadAccounted in Hacc.
  destruct (markAsRead_effect pf u notificationId c) as [Hl _].
  rewrite Hacc, Hl. split; [by apply countUnread_markOne|].
  apply countUnread_markOne_absent.
Qed.

Lemma markAsRead_counts_down_witness :
  (unreadCount (react (markAsRead chromeFull (Some bob)
                         "notification-1-1-aaaaaa" bobSession).2)
   + (if hasUnread "notification-1-1-aaaaaa" (notifications (react bobSession))
      then 1 else 0)
   = countUnread (notifications (react bobSession)))%nat
  ∧ ("notification-1-1-aaaaaa" ∉ map id (notifications (react bobSession)) →
     notifications (react (markAsRead chromeFull (Some bob)
                             "notification-1-1-aaaaaa" bobSession).2)
     = notifications (react bobSession)).
Proof.
  apply (markAsRead_counts_down chromeFull bob "notification-1-1-aaaaaa"
           bobSession).
  vm_compute. apply NoDup_singleton.
Defined.

(** X13. The operations that read or clear the ledger resynchronise the
    unread count whatever it was before and whether or not the write goes
    through: after [markAsRead], [markAllAsRead] and [clearAll] the count
    is the number of unread entries of the ledger, and after
    [markAllAsRead] every entry is read. *)
Theorem reading_resynchronises_count (pf : Platform) (u : User)
    (notificationId : string) (c : Config) :
  unreadAccounted (markAsRead pf (Some u) notificationId c).2
  ∧ unreadAccounted (markAllAsRead pf (Some u) c).2
  ∧ unreadAccounted (clearAll (Some u) c).2
  ∧ Forall (λ n, read n = true)
      (notifications (react (markAllAsRead pf (Some u) c).2))
  ∧ unreadCount (react (markAllAsRead pf (Some u) c).2) = 0%nat.
Proof.
  split; [apply markAsRead_accounted|].
  split; [apply markAllAsRead_accounted|].
  split; [apply clearAll_accounted|].
  destruct (markAllAsRead_effect pf u c) as [-> _]. split.
  - apply Forall_forall. intros n Hn. apply list_elem_of_In in Hn.
    apply in_map_iff in Hn as (m & <- & _). reflexivity.
  - pose proof (markAllAsRead_accounted pf u c) as H.
    unfold unreadAccounted in H. rewrite H.
    destruct (markAllAsRead_effect pf u c) as [-> _].
    apply countUnread_mark_all.
Qed.

(** ** Evaluators *)

Lemma returns_ret : returns (mret tt).
Proof. intros c. reflexivity. Qed.

Lemma returns_detached (m : Op unit) : returns (detached m).
Proof. intros c. by rewrite detached_returns. Qed.

Lemma returns_when (b : bool) (m : Op unit) : returns m → returns (when b m).
Proof. intros Hm. destruct b; [exact Hm | apply returns_ret]. Qed.

Lemma returns_seq (m k : Op unit) :
  returns m → returns k → returns (m;; k).
Proof.
  intros Hm Hk c. specialize (Hm c). unfold mbind, op_bind.
  destruct (m c) as [[[]|e] c']; [apply Hk | discriminate].
Qed.

Lemma returns_forEach {A} (l : list A) (f : A → Op unit) :
  (∀ x, returns (f x)) → returns (forEach l f).
Proof.
  intros Hf. induction l as [|x l IH]; [apply returns_ret|].
  cbn [forEach]. by apply returns_seq.
Qed.

Lemma returns_after_gets {A} (f : Config → A) (k : A → Op unit) :
  (∀ a, returns (k a)) → returns (gets f ≫= k).
Proof. intros Hk c. apply Hk. Qed.

Lemma deadlineAlertsFor_returns (pf : Platform) (user : option User)
    (project : Project) :
  returns (deadlineAlertsFor pf user project).
Proof.
  unfold deadlineAlertsFor.
  destruct (is_completed _); [apply returns_ret|].
  destruct (dueDateStr _); [|apply returns_ret].
  destruct (daysDiff _ _); [|apply returns_ret].
  repeat apply returns_seq; apply returns_when, returns_detached.
Qed.

Lemma sendNotification_returns (pf : Platform) (user : option User)
    (cand : Candidate) :
  returns (sendNotification pf user cand).
Proof.
  intros c. destruct user as [u|]; [|reflexivity].
  by rewrite sendNotification_eq.
Qed.

Lemma senders_return (pf : Platform) (user : option User) :
  (∀ projects, returns (scheduleDeadlineAlerts pf user projects))
  ∧ (∀ projects, returns (scheduleTaskReminders pf user projects))
  ∧ (∀ projects, returns (sendWeeklySummary pf user projects))
  ∧ (∀ ev, returns (dispatchEvent pf user ev)).
Proof.
  repeat split; intros x.
  - unfold scheduleDeadlineAlerts. apply returns_after_gets.
    intros st. destruct (_ || _ || _); [apply returns_ret|].
    apply returns_forEach, deadlineAlertsFor_returns.
  - unfold scheduleTaskReminders. apply returns_after_gets.
    intros st. destruct (_ || _ || _); [apply returns_ret|].
    apply returns_when, returns_detached.
  - unfold sendWeeklySummary. apply returns_after_gets.
    intros st. destruct (_ || _ || _);
      [apply returns_ret | apply sendNotification_returns].
  - unfold dispatchEvent. apply returns_after_gets. intros st.
    destruct user as [v|]; [|apply returns_ret].
    destruct (_ && _); [|apply returns_ret].
    destruct x as [detail|detail];
      unfold handleProjectUpdate, handleProjectCreated.
    + destruct (pu_user detail); [|apply returns_ret].
      destruct (negb _); [apply returns_detached | apply returns_ret].
    + destruct (pc_user detail); [|apply returns_ret].
      destruct (negb _); [apply returns_detached | apply returns_ret].
Qed.

Lemma refused_send_keeps (pf : Platform) (user : option User)
    (l0 : list Notification) (s0 : gmap string Stored) (cand : Candidate) :
  quotaExceeded pf = true →
  preserves (λ c, notifications (react c) = l0 ∧ localStorage (world c) = s0)
    (sendNotification pf user cand).
Proof.
  intros Hq c [Hl Hs]. destruct user as [u|]; [|done].
  rewrite sendNotification_ledger, sendNotification_store.
  unfold isInserted. rewrite Hq. by destruct (findIndex _ _).
Qed.

(** X14. A store that refuses writes never makes a sender throw.
    [sendNotification], the three evaluators and the event bridge return,
    and leave the ledger and the store as they were: the refused write sits
    in the ledger updater, whose exception surfaces from the render (once
    for a call of [sendNotification] whose id is new) and reaches no
    caller. *)
Theorem refused_write_never_reaches_senders (pf : Platform) (u : User)
    (cand : Candidate) (projects : list Project) (ev : Signal) (c : Config) :
  quotaExceeded pf = true →
  Forall (λ m : Op unit,
            (m c).1 = Returned tt
            ∧ notifications (react (m c).2) = notifications (react c)
            ∧ localStorage (world (m c).2) = localStorage (world c))
    [sendNotification pf (Some u) cand;
     scheduleDeadlineAlerts pf (Some u) projects;
     scheduleTaskReminders pf (Some u) projects;
     sendWeeklySummary pf (Some u) projects;
     dispatchEvent pf (Some u) ev]
  ∧ renderErrors (world (sendNotification pf (Some u) cand c).2)
    = match findIndex (λ n, same_id n (nextNotification pf cand c))
              (notifications (react c)) with
      | Some _ => renderErrors (world c)
      | None => (renderErrors (world c) ++ [QuotaExceededError])%list
      end.
Proof.
  intros Hq.
  pose proof (λ cand, refused_send_keeps pf (Some u) (notifications (react c))
                        (localStorage (world c)) cand Hq) as Hsend.
  destruct (senders_preserve _ pf (Some u) Hsend) as (Hd & Ht & Hw & Hs).
  destruct (senders_return pf (Some u)) as (Rd & Rt & Rw & Rs).
  assert (Hall : ∀ m : Op unit,
    returns m →
    preserves (λ c', notifications (react c') = notifications (react c)
                     ∧ localStorage (world c') = localStorage (world c)) m →
    (m c).1 = Returned tt
    ∧ notifications (react (m c).2) = notifications (react c)
    ∧ localStorage (world (m c).2) = localStorage (world c)).
  { intros m Hr Hp. split; [apply Hr | by apply Hp]. }
  split.
  - repeat apply Forall_cons_2; [..|apply Forall_nil_2]; apply Hall.
    + apply sendNotification_returns.
    + apply Hsend.
    + apply Rd.
    + apply Hd.
    + apply Rt.
    + apply Ht.
    + apply Rw.
    + apply Hw.
    + apply Rs.
    + apply Hs.
  - rewrite sendNotification_eq. cbn [snd world renderErrors]. rewrite Hq.
    reflexivity.
Qed.

Lemma refused_write_never_reaches_senders_witness :
  Forall (λ m : Op unit,
            (m bobSession).1 = Returned tt
            ∧ notifications (react (m bobSession).2)
              = notifications (react bobSession)
            ∧ localStorage (world (m bobSession).2)
              = localStorage (world bobSession))
    [sendNotification chromeFull (Some bob) notice;
     scheduleDeadlineAlerts chromeFull (Some bob) [projectDue "2024-06-11"];
     scheduleTaskReminders chromeFull (Some bob) [projectDue "2024-06-11"];
     sendWeeklySummary chromeFull (Some bob) [projectDue "2024-06-11"];
     dispatchEvent chromeFull (Some bob)
       (createProjectSignal alice (projectDue "2024-06-11"))]
  ∧ renderErrors
      (world (sendNotification chromeFull (Some bob) notice bobSession).2)
    = match findIndex
              (λ n, same_id n (nextNotification chromeFull notice bobSession))
              (notifications (react bobSession)) with
      | Some _ => renderErrors (world bobSession)
      | None => (renderErrors (world bobSession) ++ [QuotaExceededError])%list
      end.
Proof.
  apply (refused_write_never_reaches_senders chromeFull bob notice
           [projectDue "2024-06-11"]
           (createProjectSignal alice (projectDue "2024-06-11")) bobSession).
  reflexivity.
Defined.

(** Every call of [sendNotification] for a signed-in user draws one id. *)
Lemma sendNotification_counter (pf : Platform) (u : User) (cand : Candidate)
    (c : Config) :
  notificationCounter (world (sendNotification pf (Some u) cand c).2)
  = S (notificationCounter (world c)).
Proof. rewrite sendNotification_eq. cbn. lia. Qed.

Lemma detached_sendNotification_counter (pf : Platform) (u : User)
    (cand : Candidate) (c : Config) :
  notificationCounter
    (world (detached (sendNotification pf (Some u) cand) c).2)
  = S (notificationCounter (world c)).
Proof.
  rewrite <- (sendNotification_counter pf u cand c).
  unfold detached, try_catch.
  by destruct (sendNotification pf (Some u) cand c) as [[[]|e] c'].
Qed.

Lemma seq_returns (m k : Op unit) (c : Config) :
  returns m → (m;; k) c = k (m c).2.
Proof.
  intros Hm. specialize (Hm c). unfold mbind, op_bind.
  destruct (m c) as [[[]|e] c']; [reflexivity | discriminate].
Qed.

Lemma sendAll_cons (u : User) (pf : Platform) (cand : Candidate)
    (calls : list (Platform * Candidate)) (c : Config) :
  sendAll u ((pf, cand) :: calls) c
  = sendAll u calls (sendNotification pf (Some u) cand c).2.
Proof.
  unfold sendAll. cbn [forEach fst snd].
  rewrite seq_returns by apply returns_detached.
  by rewrite detached_sendNotification.
Qed.

Lemma ret_seq (m : Op unit) (c : Config) : (mret tt;; m) c = m c.
Proof. reflexivity. Qed.

(** The callback of the deadline pass sends the alert of the project, if it
    has one. *)
Lemma deadlineAlertsFor_eq (pf : Platform) (u : User) (project : Project)
    (c : Config) :
  deadlineAlertsFor pf (Some u) project c
  = match alertCandidate pf project with
    | Some cand => sendNotification pf (Some u) cand c
    | None => (Returned tt, c)
    end.
Proof.
  unfold deadlineAlertsFor, alertCandidate.
  destruct (is_completed _); [reflexivity|].
  destruct (dueDateStr _) as [s|]; [|reflexivity]. cbn [mbind option_bind].
  destruct (daysDiff pf s) as [d|]; [|reflexivity]. cbn [mbind option_bind].
  destruct (Z.eqb_spec d 1) as [->|H1].
  { cbn [when].
    rewrite seq_returns by apply returns_detached.
    rewrite detached_sendNotification, sendNotification_eq. reflexivity. }
  destruct (Z.eqb_spec d 3) as [->|H3].
  { cbn [when].
    rewrite ret_seq.
    rewrite seq_returns by apply returns_detached.
    rewrite detached_sendNotification, sendNotification_eq. reflexivity. }
  destruct (d <? 0)%Z; cbn [when]; [|reflexivity].
  change (detached (sendNotification pf (Some u) (overdueAlert project d)) c
          = sendNotification pf (Some u) (overdueAlert project d) c).
  apply detached_sendNotification.
Qed.

Lemma forEach_deadline_eq (pf : Platform) (u : User)
    (projects : list Project) (c : Config) :
  forEach projects (deadlineAlertsFor pf (Some u)) c
  = sendAll u (map (pair pf) (omap (alertCandidate pf) projects)) c.
Proof.
  revert c. induction projects as [|p l IH]; intros c; [reflexivity|].
  cbn [forEach omap list_omap].
  rewrite seq_returns by apply deadlineAlertsFor_returns.
  rewrite IH, deadlineAlertsFor_eq.
  destruct (alertCandidate pf p) as [cand|]; [|reflexivity].
  cbn [map]. by rewrite sendAll_cons.
Qed.

Lemma alertCandidate_alerts_for (pf : Platform) (project : Project) :
  if alerts_for pf project
  then ∃ cand, alertCandidate pf project = Some cand
               ∧ c_type cand = type_push
               ∧ c_category cand = cat_deadline
               ∧ c_data cand = Some (DataProject (project_id project))
  else alertCandidate pf project = None.
Proof.
  unfold alerts_for, alertCandidate.
  destruct (is_completed _); [reflexivity|].
  destruct (dueDateStr _) as [s|]; [|reflexivity]. cbn [mbind option_bind].
  destruct (daysDiff pf s) as [d|]; [|reflexivity].
  cbn [mbind option_bind negb andb].
  destruct (d =? 1)%Z; [by eexists|].
  destruct (d =? 3)%Z; [by eexists|].
  destruct (d <? 0)%Z; [by eexists | reflexivity].
Qed.

(** X15. With deadline alerts switched on, one pass of
    [scheduleDeadlineAlerts] is the sequence of calls of [sendNotification]
    for the alerts of the projects, in the order of the projects.  A
    project has an alert exactly when it is not completed and its day count
    is 1, 3 or negative, and then it has one alert only: of type push and
    category deadline, carrying the id of the project.  The three rules
    never fire together. *)
Theorem deadline_alerts_one_per_project (pf : Platform) (u : User)
    (projects : list Project) (c : Config) :
  deadlineAlerts (settings (react c)) = true →
  scheduleDeadlineAlerts pf (Some u) projects c
  = sendAll u (map (pair pf) (omap (alertCandidate pf) projects)) c
  ∧ length (omap (alertCandidate pf) projects)
    = length (List.filter (alerts_for pf) projects)
  ∧ Forall (λ project,
       if alerts_for pf project
       then ∃ cand, alertCandidate pf project = Some cand
                    ∧ c_type cand = type_push
                    ∧ c_category cand = cat_deadline
                    ∧ c_data cand = Some (DataProject (project_id project))
       else alertCandidate pf project = None) projects.
Proof.
  intros Hon. split; [|split].
  - unfold scheduleDeadlineAlerts.
    unfold mbind at 1, op_bind at 1, gets. rewrite Hon.
    cbn [negb signedIn orb].
    destruct projects as [|p ps]; [reflexivity|].
    cbn [length Nat.eqb]. apply forEach_deadline_eq.
  - induction projects as [|p l IH]; [reflexivity|].
    cbn [omap list_omap List.filter].
    pose proof (alertCandidate_alerts_for pf p) as Hp.
    destruct (alerts_for pf p).
    + destruct Hp as (cand & -> & _). cbn [length]. by rewrite IH.
    + by rewrite Hp.
  - apply Forall_forall. intros project _.
    apply alertCandidate_alerts_for.
Qed.

Lemma deadline_alerts_one_per_project_witness :
  scheduleDeadlineAlerts chrome (Some alice)
    [projectDue "2024-06-11"; projectDue "2024-06-12";
     projectDue "2024-06-05"] (aliceSession chrome)
  = sendAll alice
      (map (pair chrome)
         (omap (alertCandidate chrome)
            [projectDue "2024-06-11"; projectDue "2024-06-12";
             projectDue "2024-06-05"]))
      (aliceSession chrome)
  ∧ length (omap (alertCandidate chrome)
              [projectDue "2024-06-11"; projectDue "2024-06-12";
               projectDue "2024-06-05"])
    = length (List.filter (alerts_for chrome)
                [projectDue "2024-06-11"; projectDue "2024-06-12";
                 projectDue "2024-06-05"])
  ∧ Forall (λ project,
       if alerts_for chrome project
       then ∃ cand, alertCandidate chrome project = Some cand
                    ∧ c_type cand = type_push
                    ∧ c_category cand = cat_deadline
                    ∧ c_data cand = Some (DataProject (project_id project))
       else alertCandidate chrome project = None)
      [projectDue "2024-06-11"; projectDue "2024-06-12";
       projectDue "2024-06-05"].
Proof.
  apply (deadline_alerts_one_per_project chrome alice). reflexivity.
Defined.

Lemma ceil_div_spec (a b : Z) :
  (0 < b → (ceil_div a b - 1) * b < a ≤ ceil_div a b * b)%Z.
Proof.
  intros Hb. unfold ceil_div.
  pose proof (Z.mul_div_le (- a) b Hb).
  pose proof (Z.mul_succ_div_gt (- a) b Hb). lia.
Qed.

Lemma ceil_div_iff (a b k : Z) :
  (0 < b → ceil_div a b = k ↔ (k - 1) * b < a ≤ k * b)%Z.
Proof.
  intros Hb. split; [intros <-; by apply ceil_div_spec|].
  by apply ceil_div_eq.
Qed.

Lemma ceil_div_neg_iff (a b : Z) :
  (0 < b → ceil_div a b < 0 ↔ a ≤ - b)%Z.
Proof. intros Hb. pose proof (ceil_div_spec a b Hb). nia. Qed.

Lemma ceil_div_range_iff (a b lo hi : Z) :
  (0 < b → lo ≤ ceil_div a b ≤ hi ↔ (lo - 1) * b < a ≤ hi * b)%Z.
Proof. intros Hb. pose proof (ceil_div_spec a b Hb). nia. Qed.

(** X16. The windows of the three evaluators, in milliseconds between now
    and the due instant of a project that is not completed.  A deadline
    alert is raised when the project is due within the next 24 hours, or
    between 48 and 72 hours from now, or has been due for 24 hours or more.
    The task reminder counts it from less than 24 hours after the due
    instant up to 7 days before it.  The weekly summary counts it overdue
    as soon as the due instant is past.  So a project less than a day late
    is overdue for the summary, still upcoming for the reminder, and raises
    no alert. *)
Theorem evaluator_windows (pf : Platform) (project : Project) (due : Z) :
  status project ≠ completed →
  dueInstant pf project = Some due →
  (alerts_for pf project = true
   ↔ (0 < due - clock pf ≤ msPerDay)%Z
     ∨ (2 * msPerDay < due - clock pf ≤ 3 * msPerDay)%Z
     ∨ (due - clock pf ≤ - msPerDay)%Z)
  ∧ (isUpcoming pf project = true
     ↔ (- msPerDay < due - clock pf ≤ 7 * msPerDay)%Z)
  ∧ (isOverdue pf project = true ↔ (due - clock pf < 0)%Z).
Proof.
  intros Hstatus Hdue.
  assert (Hc : is_completed (status project) = false)
    by (by destruct (status project)).
  assert (Hday : (0 < msPerDay)%Z) by reflexivity.
  unfold dueInstant in Hdue. unfold alerts_for, isUpcoming, isOverdue, daysDiff.
  rewrite Hc. destruct (dueDateStr project) as [s|]; [|discriminate].
  cbn in Hdue. rewrite Hdue. cbn [mbind option_bind negb andb].
  set (a := due - clock pf).
  split; [|split].
  - rewrite !orb_true_iff, !Z.eqb_eq, Z.ltb_lt.
    rewrite !ceil_div_iff, ceil_div_neg_iff by exact Hday. lia.
  - rewrite andb_true_iff, !Z.leb_le.
    rewrite (ceil_div_range_iff a msPerDay 0 7) by exact Hday. lia.
  - rewrite Z.ltb_lt. unfold a. lia.
Qed.

Lemma evaluator_windows_witness :
  (alerts_for chrome (projectDue "2024-06-11") = true
   ↔ (0 < utcMidnight 2024 6 11 - clock chrome ≤ msPerDay)%Z
     ∨ (2 * msPerDay < utcMidnight 2024 6 11 - clock chrome
        ≤ 3 * msPerDay)%Z
     ∨ (utcMidnight 2024 6 11 - clock chrome ≤ - msPerDay)%Z)
  ∧ (isUpcoming chrome (projectDue "2024-06-11") = true
     ↔ (- msPerDay < utcMidnight 2024 6 11 - clock chrome
        ≤ 7 * msPerDay)%Z)
  ∧ (isOverdue chrome (projectDue "2024-06-11") = true
     ↔ (utcMidnight 2024 6 11 - clock chrome < 0)%Z).
Proof.
  apply (evaluator_windows chrome (projectDue "2024-06-11")
           (utcMidnight 2024 6 11)); [discriminate | reflexivity].
Defined.

(** X17. With task reminders switched on, one pass of
    [scheduleTaskReminders] is one call of [sendNotification] when at least
    one project is upcoming, and does nothing otherwise, however many
    projects are upcoming.  The reminder is of type push and category task
    and carries the number and the names of the upcoming projects, in the
    order of the projects. *)
Theorem task_reminders_at_most_one (pf : Platform) (u : User)
    (projects : list Project) (c : Config) :
  taskReminders (settings (react c)) = true →
  let upcoming := List.filter (isUpcoming pf) projects in
  scheduleTaskReminders pf (Some u) projects c
  = (if existsb (isUpcoming pf) projects
     then sendNotification pf (Some u) (taskReminder upcoming) c
     else (Returned tt, c))
  ∧ c_type (taskReminder upcoming) = type_push
  ∧ c_category (taskReminder upcoming) = cat_task
  ∧ c_data (taskReminder upcoming)
    = Some (DataTask (length upcoming) (map project_name upcoming)).
Proof.
  intros Hon upcoming. split; [|by repeat split].
  unfold scheduleTaskReminders.
  unfold mbind at 1, op_bind at 1, gets. rewrite Hon.
  cbn [negb signedIn orb].
  destruct projects as [|p ps]; [reflexivity|].
  cbn [length Nat.eqb]. fold upcoming.
  replace (0 <? length upcoming)%nat
    with (existsb (isUpcoming pf) (p :: ps)).
  - destruct (existsb _ _); [apply detached_sendNotification | reflexivity].
  - unfold upcoming. generalize (p :: ps). intros l.
    induction l as [|x l IH]; [reflexivity|].
    cbn. destruct (isUpcoming pf x); [reflexivity | exact IH].
Qed.

Lemma task_reminders_at_most_one_witness :
  scheduleTaskReminders chrome (Some alice)
    [projectDue "2024-06-11"; projectDue "2024-06-30"] (aliceSession chrome)
  = (if existsb (isUpcoming chrome)
          [projectDue "2024-06-11"; projectDue "2024-06-30"]
     then sendNotification chrome (Some alice)
            (taskReminder
               (List.filter (isUpcoming chrome)
                  [projectDue "2024-06-11"; projectDue "2024-06-30"]))
            (aliceSession chrome)
     else (Returned tt, aliceSession chrome))
  ∧ c_type (taskReminder
              (List.filter (isUpcoming chrome)
                 [projectDue "2024-06-11"; projectDue "2024-06-30"]))
    = type_push
  ∧ c_category (taskReminder
                  (List.filter (isUpcoming chrome)
                     [projectDue "2024-06-11"; projectDue "2024-06-30"]))
    = cat_task
  ∧ c_data (taskReminder
              (List.filter (isUpcoming chrome)
                 [projectDue "2024-06-11"; projectDue "2024-06-30"]))
    = Some (DataTask
              (length (List.filter (isUpcoming chrome)
                         [projectDue "2024-06-11"; projectDue "2024-06-30"]))
              (map project_name
                 (List.filter (isUpcoming chrome)
                    [projectDue "2024-06-11"; projectDue "2024-06-30"]))).
Proof.
  apply (task_reminders_at_most_one chrome alice). reflexivity.
Defined.



(** ** Event bridge *)

Lemma dispatchEvent_sends (pf : Platform) (u : User) (ev : Signal)
    (c : Config) :
  bridgeSends (react c) u ev = true →
  ∃ cand, dispatchEvent pf (Some u) ev c
          = detached (sendNotification pf (Some u) cand) c
          ∧ c_type cand = type_push ∧ c_category cand = cat_team.
Proof.
  unfold bridgeSends, dispatchEvent. unfold mbind at 1, op_bind at 1, gets.
  intros [[-> ->]%andb_true_iff Hact]%andb_true_iff. cbn [andb].
  destruct ev as [detail|detail]; cbn [actingUser] in Hact;
    unfold handleProjectUpdate, handleProjectCreated;
    [destruct (pu_user detail) | destruct (pc_user detail)];
    try discriminate; rewrite Hact; eexists; repeat split.
Qed.

Lemma dispatchEvent_ignores (pf : Platform) (u : User) (ev : Signal)
    (c : Config) :
  bridgeSends (react c) u ev = false →
  dispatchEvent pf (Some u) ev c = (Returned tt, c).
Proof.
  unfold bridgeSends, dispatchEvent. unfold mbind at 1, op_bind at 1, gets.
  destruct (teamUpdates _ && initialized _); [|reflexivity]. cbn [andb].
  destruct ev as [detail|detail]; cbn [actingUser];
    unfold handleProjectUpdate, handleProjectCreated;
    [destruct (pu_user detail) | destruct (pc_user detail)];
    try reflexivity; intros ->; reflexivity.
Qed.

(** X19. The event bridge turns a signal into exactly one team
    notification of type push when team updates are enabled, the provider
    is initialised, and the signal names an acting user whose id differs
    from the current user's; in every other case the signal changes
    nothing at all. *)
Theorem bridge_sends_exactly_when (pf : Platform) (u : User) (ev : Signal)
    (c : Config) :
  (bridgeSends (react c) u ev = true →
   ∃ cand, dispatchEvent pf (Some u) ev c
           = detached (sendNotification pf (Some u) cand) c
           ∧ c_type cand = type_push ∧ c_category cand = cat_team
           ∧ notificationCounter (world (dispatchEvent pf (Some u) ev c).2)
             = S (notificationCounter (world c)))
  ∧ (bridgeSends (react c) u ev = false →
     dispatchEvent pf (Some u) ev c = (Returned tt, c)).
Proof.
  split; [|apply dispatchEvent_ignores].
  intros H. destruct (dispatchEvent_sends pf u ev c H) as (cand & E & ? & ?).
  exists cand. repeat split; try done.
  rewrite E. apply detached_sendNotification_counter.
Qed.

(** X20. The signals that this code base dispatches never notify: a signal
    built by [createProject], [updateProject] or [deleteProject] names the
    signed-in user as its actor, and the provider of the same user drops
    it, whatever its settings. *)
Theorem own_project_signals_are_dropped (pf : Platform) (user : User)
    (newProject : Project) (projectId : string) (updates : ProjectUpdates)
    (c : Config) :
  dispatchEvent pf (Some user) (createProjectSignal user newProject) c
  = (Returned tt, c)
  ∧ dispatchEvent pf (Some user)
      (updateProjectSignal user projectId updates) c
    = (Returned tt, c)
  ∧ dispatchEvent pf (Some user) (deleteProjectSignal user projectId) c
    = (Returned tt, c).
Proof.
  repeat split; apply dispatchEvent_ignores; unfold bridgeSends;
    cbn [actingUser createProjectSignal updateProjectSignal
         deleteProjectSignal pc_user pu_user];
    rewrite String.eqb_refl; apply andb_false_r.
Qed.

(** ** The ledger, call by call *)

Lemma prepended_le (k k' : nat) (l l' : list Notification) :
  (k ≤ k')%nat → prepended k l l' → prepended k' l l'.
Proof.
  intros Hk [->|(news & Hne & Hlen & Hall & ->)]; [by left|].
  right. exists news. repeat split; first [done | lia].
Qed.

Lemma sendNotification_prepended (pf : Platform) (u : User)
    (cand : Candidate) (c : Config) :
  prepended 1 (notifications (react c))
    (notifications (react (sendNotification pf (Some u) cand c).2)).
Proof.
  rewrite sendNotification_ledger.
  destruct (isInserted _ _ _); [|by left].
  right. exists [nextNotification pf cand c].
  repeat split; first [done | by repeat constructor].
Qed.

Lemma sendAll_prepended (u : User) (calls : list (Platform * Candidate)) :
  ∀ c, prepended (length calls) (notifications (react c))
         (notifications (react (sendAll u calls c).2)).
Proof.
  induction calls as [|[pf cand] calls IH]; intros c; [by left|].
  rewrite sendAll_cons. cbn [length].
  specialize (IH (sendNotification pf (Some u) cand c).2).
  rewrite sendNotification_ledger in IH.
  destruct (isInserted _ _ _).
  - destruct IH as [->|(news & Hne & Hlen & Hall & ->)]; right.
    + exists [nextNotification pf cand c].
      repeat split; first [done | cbn; lia | by repeat constructor].
    + exists (news ++ [nextNotification pf cand c])%list. repeat split.
      * by destruct news.
      * rewrite length_app. cbn. lia.
      * apply Forall_app. split; [exact Hall | by repeat constructor].
      * rewrite take_app_take, <- app_assoc. reflexivity.
  - apply (prepended_le (length calls)); [lia | exact IH].
Qed.

Lemma length_omap_le {A B} (f : A → option B) (l : list A) :
  (length (omap f l) ≤ length l)%nat.
Proof.
  induction l as [|x l IH]; [done|]. cbn [omap list_omap].
  destruct (f x); cbn [length]; lia.
Qed.

(** X3. What each call does to the ledger.  An update of the settings and
    a permission request leave it as it is.  [markAsRead] marks the
    entries with the given id, [markAllAsRead] marks every entry,
    [clearAll] empties it.  [sendNotification], the task reminders, the
    weekly summary and a signal leave it as it is or put one new unread
    entry in front; a deadline pass puts at most one new unread entry per
    project in front; the ledger is then cut to 50 entries from the tail.
    No call alters, reorders or removes the existing entries in any other
    way. *)
Theorem call_ledger_effect (pf : Platform) (u : User) (call : Call)
    (c : Config) :
  let l := notifications (react c) in
  let l' := notifications (react (perform pf (Some u) call c).2) in
  match call with
  | call_updateSettings _ | call_requestPushPermission => l' = l
  | call_markAsRead notificationId => l' = markOne notificationId l
  | call_markAllAsRead => l' = map mark_read l
  | call_clearAll => l' = []
  | call_scheduleDeadlineAlerts projects => prepended (length projects) l l'
  | call_sendNotification _ | call_scheduleTaskReminders _
  | call_sendWeeklySummary _ | call_signal _ => prepended 1 l l'
  end.
Proof.
  intros l l'. unfold l, l'. clear l l'.
  destruct call as [p|cand|nid| | | |projects|projects|projects|ev];
    cbn [perform].
  - by destruct (updateSettings_effect pf u p c) as [-> _].
  - apply sendNotification_prepended.
  - by destruct (markAsRead_effect pf u nid c) as [-> _].
  - by destruct (markAllAsRead_effect pf u c) as [-> _].
  - reflexivity.
  - destruct (requestPushPermission_effect pf c) as [Hr _].
    unfold mbind, op_bind.
    destruct (requestPushPermission pf c) as [[b|e] c']; cbn in *;
      by rewrite Hr.
  - unfold scheduleDeadlineAlerts. unfold mbind at 1, op_bind at 1, gets.
    destruct (_ || _ || _); [by left|].
    rewrite forEach_deadline_eq.
    eapply prepended_le; [|apply sendAll_prepended].
    rewrite length_map. apply length_omap_le.
  - unfold scheduleTaskReminders. unfold mbind at 1, op_bind at 1, gets.
    destruct (_ || _ || _); [by left|].
    destruct (0 <? _)%nat; cbn [when]; [|by left].
    rewrite detached_sendNotification. apply sendNotification_prepended.
  - unfold sendWeeklySummary. unfold mbind at 1, op_bind at 1, gets.
    destruct (_ || _ || _); [by left|]. apply sendNotification_prepended.
  - unfold dispatchEvent. unfold mbind at 1, op_bind at 1, gets.
    destruct (_ && _); [|by left].
    destruct ev as [detail|detail];
      unfold handleProjectUpdate, handleProjectCreated.
    + destruct (pu_user detail); [|by left].
      destruct (negb _); [|by left].
      rewrite detached_sendNotification. apply sendNotification_prepended.
    + destruct (pc_user detail); [|by left].
      destruct (negb _); [|by left].
      rewrite detached_sendNotification. apply sendNotification_prepended.
Qed.

(** ** Notification menu *)

(** X21. The age shown for a notification created [age] milliseconds ago:
    "Agora" below one minute (and for a timestamp in the future), whole
    minutes from 1 to 59 below one hour, whole hours from 1 to 23 below one
    day, whole days from then on, each rounded down; an invalid timestamp
    is shown as "NaNd atrás". *)
Theorem getTimeAgo_units (pf : Platform) (dateString : string) :
  match Date_parse pf dateString with
  | None => getTimeAgo pf dateString = "NaNd atrás"
  | Some date =>
      let age := clock pf - date in
      (age < 60000 → getTimeAgo pf dateString = "Agora")%Z
      ∧ (60000 ≤ age < 3600000 →
         ∃ m, getTimeAgo pf dateString = pretty m +:+ "min atrás"
              ∧ 1 ≤ m ≤ 59 ∧ m * 60000 ≤ age < (m + 1) * 60000)%Z
      ∧ (3600000 ≤ age < 86400000 →
         ∃ h, getTimeAgo pf dateString = pretty h +:+ "h atrás"
              ∧ 1 ≤ h ≤ 23 ∧ h * 3600000 ≤ age < (h + 1) * 3600000)%Z
      ∧ (86400000 ≤ age →
         ∃ d, getTimeAgo pf dateString = pretty d +:+ "d atrás"
              ∧ 1 ≤ d ∧ d * 86400000 ≤ age < (d + 1) * 86400000)%Z
  end.
Proof.
  unfold getTimeAgo. destruct (Date_parse pf dateString) as [date|];
    [|reflexivity].
  cbv zeta. set (age := (clock pf - date)%Z).
  change (1000 * 60 * 60 * 24)%Z with 86400000%Z.
  change (1000 * 60 * 60)%Z with 3600000%Z.
  change (1000 * 60)%Z with 60000%Z.
  pose proof (Z.mul_div_le age 60000 eq_refl).
  pose proof (Z.mul_succ_div_gt age 60000 eq_refl).
  pose proof (Z.mul_div_le age 3600000 eq_refl).
  pose proof (Z.mul_succ_div_gt age 3600000 eq_refl).
  pose proof (Z.mul_div_le age 86400000 eq_refl).
  pose proof (Z.mul_succ_div_gt age 86400000 eq_refl).
  split; [|split; [|split]]; intros Hage.
  - destruct (Z.ltb_spec (age / 60000) 1); [reflexivity | lia].
  - destruct (Z.ltb_spec (age / 60000) 1); [lia|].
    destruct (Z.ltb_spec (age / 60000) 60); [|lia].
    exists (age / 60000)%Z. split; [reflexivity | lia].
  - destruct (Z.ltb_spec (age / 60000) 1); [lia|].
    destruct (Z.ltb_spec (age / 60000) 60); [lia|].
    destruct (Z.ltb_spec (age / 3600000) 24); [|lia].
    exists (age / 3600000)%Z. split; [reflexivity | lia].
  - destruct (Z.ltb_spec (age / 60000) 1); [lia|].
    destruct (Z.ltb_spec (age / 60000) 60); [lia|].
    destruct (Z.ltb_spec (age / 3600000) 24); [lia|].
    exists (age / 86400000)%Z. split; [reflexivity | lia].
Qed.

(** ** Settings updates *)

(** X22. An update changes the fields it names and no other: whatever the
    outcome (including a failed write and a rolled-back permission
    request), every field but [push] ends with the value of the partial
    when it gives one and with its old value otherwise; the permission is
    never requested, and stays as it is, unless the partial sets [push] to
    true on a platform that supports push. *)
Theorem updateSettings_touches_named_fields (pf : Platform) (u : User)
    (newSettings : PartialSettings) (c : Config) :
  let s := settings (react c) in
  let s' := settings (react (updateSettings pf (Some u) newSettings c).2) in
  email s' = default (email s) (p_email newSettings)
  ∧ weeklySummary s' = default (weeklySummary s) (p_weeklySummary newSettings)
  ∧ taskReminders s' = default (taskReminders s) (p_taskReminders newSettings)
  ∧ deadlineAlerts s'
    = default (deadlineAlerts s) (p_deadlineAlerts newSettings)
  ∧ teamUpdates s' = default (teamUpdates s) (p_teamUpdates newSettings)
  ∧ (p_push newSettings ≠ Some true → push s' = default (push s) (p_push newSettings))
  ∧ (p_push newSettings ≠ Some true ∨ pushSupported (react c) = false →
     permission (world (updateSettings pf (Some u) newSettings c).2)
     = permission (world c)).
Proof.
  intros s s'. unfold s', s. clear s s'.
  unfold updateSettings, requestPushPermission, setItem, setSettings,
    setPermission.
  unfold_op. cbn.
  destruct (quotaExceeded pf); cbn;
    destruct (p_push newSettings) as [[]|] eqn:Hp; cbn;
    destruct (pushSupported (react c)) eqn:Hs; cbn;
    try destruct (requestAnswer pf) as [[]|]; cbn;
    repeat split; intros; try reflexivity; try congruence;
    try (rewrite Hp; reflexivity);
    match goal with H : _ ∨ _ |- _ => destruct H; congruence end.
Qed.

(** ** Native alerts *)

(** X23. The native alert.  A call of [sendNotification] for a signed-in
    user shows exactly one alert, with the title, message and id of the
    entry it built, when the [push] setting is on, push is supported, the
    permission is granted and the platform can build the alert; otherwise
    it shows none.  Neither a duplicate id nor a store that refuses the
    write changes this.  An alert that cannot be built never makes the
    call throw. *)
Theorem native_alert_gate (pf : Platform) (u : User) (cand : Candidate)
    (c : Config) :
  let allowed := push (settings (react c)) && pushSupported (react c)
                 && is_granted (permission (world c)) in
  let result := sendNotification pf (Some u) cand c in
  result.1 = Returned tt
  ∧ alerts (world result.2)
    = if allowed && negb (alertThrows pf)
      then (alerts (world c) ++ [alertOf (nextNotification pf cand c)])%list
      else alerts (world c).
Proof.
  intros allowed result. unfold result, allowed. clear allowed result.
  rewrite sendNotification_eq. split; reflexivity.
Qed.

(** ** Identifiers *)

Lemma digitValue_pretty_N_char (x : N) :
  is_Some (digitValue (pretty_N_char x)).
Proof.
  unfold pretty_N_char. repeat case_match; by eexists.
Qed.

Lemma digitsOnly_pretty_N_go (x : N) (s : string) :
  digitsOnly s = true → digitsOnly (pretty_N_go x s) = true.
Proof.
  revert s. induction (N.lt_wf_0 x) as [x _ IH]; intros s Hs.
  destruct (decide (x = 0)%N) as [->|].
  - by rewrite pretty_N_go_0.
  - rewrite pretty_N_go_step by lia. apply IH.
    + apply N.div_lt; lia.
    + cbn [digitsOnly]. rewrite Hs.
      rewrite bool_decide_eq_true_2; [done|].
      apply digitValue_pretty_N_char.
Qed.

Lemma digitsOnly_pretty_N (x : N) : digitsOnly (pretty x) = true.
Proof.
  unfold pretty, pretty_N. case_decide; [reflexivity|].
  by apply digitsOnly_pretty_N_go.
Qed.

Lemma digitsOnly_pretty_nat (n : nat) : digitsOnly (pretty n) = true.
Proof. apply digitsOnly_pretty_N. Qed.

Lemma digitsOnly_pretty_Z (z : Z) : (0 ≤ z)%Z → digitsOnly (pretty z) = true.
Proof.
  intros Hz. destruct z as [|p|p]; [reflexivity| |lia].
  apply (digitsOnly_pretty_N (Npos p)).
Qed.

(** Two digit strings followed by a hyphen and anything: the digit strings
    end at the first hyphen. *)
Lemma digits_split (a b x y : string) :
  digitsOnly a = true → digitsOnly b = true →
  a +:+ "-" +:+ x = b +:+ "-" +:+ y → a = b ∧ x = y.
Proof.
  revert b. induction a as [|ca a IH]; intros [|cb b] Ha Hb Heq.
  - cbn in Heq. by injection Heq.
  - cbn in Heq, Hb. injection Heq as <- _.
    apply andb_true_iff in Hb as [Hb%bool_decide_eq_true _].
    by destruct Hb.
  - cbn in Heq, Ha. injection Heq as -> _.
    apply andb_true_iff in Ha as [Ha%bool_decide_eq_true _].
    by destruct Ha.
  - cbn in Heq, Ha, Hb. injection Heq as -> Heq.
    apply andb_true_iff in Ha as [_ Ha].
    apply andb_true_iff in Hb as [_ Hb].
    destruct (IH b Ha Hb Heq) as [-> ->]. done.
Qed.

Lemma formatId_inj (t t' : Z) (k k' : nat) (r r' : string) :
  (0 ≤ t)%Z → (0 ≤ t')%Z →
  formatId t k r = formatId t' k' r' → t = t' ∧ k = k' ∧ r = r'.
Proof.
  intros Ht Ht' Heq. unfold formatId in Heq.
  apply (String.app_inj "notification-") in Heq.
  apply digits_split in Heq as [Heq1 Heq];
    [|by apply digitsOnly_pretty_Z..].
  apply digits_split in Heq as [Heq2 Heq3];
    [|by apply digitsOnly_pretty_nat..].
  apply (inj pretty) in Heq1. apply (inj pretty) in Heq2. done.
Qed.

Lemma ledger_calls_keep_counter (pf : Platform) (u : User) (nid : string)
    (c : Config) :
  notificationCounter (world (markAsRead pf (Some u) nid c).2)
  = notificationCounter (world c)
  ∧ notificationCounter (world (markAllAsRead pf (Some u) c).2)
    = notificationCounter (world c).
Proof.
  unfold markAsRead, markAllAsRead, setItem, setNotifications,
    setUnreadCount.
  unfold_op. by destruct (quotaExceeded pf).
Qed.

Lemma settings_calls_keep_counter (pf : Platform) (u : User)
    (p : PartialSettings) (c : Config) :
  notificationCounter (world (updateSettings pf (Some u) p c).2)
  = notificationCounter (world c)
  ∧ notificationCounter (world (requestPushPermission pf c).2)
    = notificationCounter (world c).
Proof.
  unfold updateSettings, requestPushPermission, setItem, setSettings,
    setPermission.
  unfold_op. split; repeat (case_match; cbn in *; simplify_eq); reflexivity.
Qed.

Lemma elem_of_markOne (nid : string) (l : list Notification)
    (n' : Notification) :
  n' ∈ markOne nid l → ∃ n, n ∈ l ∧ id n' = id n.
Proof.
  unfold markOne. intros Hn. apply list_elem_of_In, in_map_iff in Hn
    as (n & <- & Hn%list_elem_of_In).
  exists n. split; [done|]. by destruct (String.eqb _ _).
Qed.

Lemma sendNotification_idsDrawn (pf : Platform) (u : User)
    (cand : Candidate) :
  (0 ≤ clock pf)%Z → preserves idsDrawn (sendNotification pf (Some u) cand).
Proof.
  unfold idsDrawn. intros Hpf c Hc n.
  rewrite sendNotification_ledger, sendNotification_counter.
  destruct (isInserted _ _ _).
  - intros Hn%subseteq_take. apply elem_of_cons in Hn as [->|Hn].
    + eexists _, _, _. split; [reflexivity|]. split; [done|]. lia.
    + destruct (Hc n Hn) as (t & k & r & ? & ? & ?).
      exists t, k, r. repeat split; [done..|lia].
  - intros Hn. destruct (Hc n Hn) as (t & k & r & ? & ? & ?).
    exists t, k, r. repeat split; [done..|lia].
Qed.

Lemma session_idsDrawn (u : User) (steps : list (Platform * Call)) :
  Forall (λ step, (0 ≤ clock step.1)%Z) steps →
  preserves idsDrawn (session (Some u) steps).
Proof.
  intros Hclock.
  apply (session_preserves _ (λ pf, (0 ≤ clock pf)%Z)); [..|exact Hclock].
  - intros pf cand Hpf. by apply sendNotification_idsDrawn.
  - unfold idsDrawn. intros pf nid _ c Hc n.
    destruct (markAsRead_effect pf u nid c) as [-> _].
    destruct (ledger_calls_keep_counter pf u nid c) as (-> & _).
    intros (m & Hm & ->)%elem_of_markOne. by apply Hc.
  - unfold idsDrawn. intros pf _ c Hc n.
    destruct (markAllAsRead_effect pf u c) as [-> _].
    destruct (ledger_calls_keep_counter pf u EmptyString c) as (_ & ->).
    intros Hn. apply list_elem_of_In, in_map_iff in Hn
      as (m & <- & Hm%list_elem_of_In). exact (Hc m Hm).
  - unfold idsDrawn. intros c Hc n.
    destruct (clearAll_effect u c) as (-> & _).
    intros []%elem_of_nil.
  - unfold idsDrawn. intros pf p _ c Hc n.
    destruct (updateSettings_effect pf u p c) as [-> _].
    destruct (settings_calls_keep_counter pf u p c) as (-> & _).
    by apply Hc.
  - unfold idsDrawn. intros pf _ c Hc n.
    destruct (requestPushPermission_effect pf c) as [-> _].
    destruct (settings_calls_keep_counter pf u enablePush c) as (_ & ->).
    by apply Hc.
Qed.

Lemma idsDrawn_next_is_new (pf : Platform) (cand : Candidate) (c : Config) :
  idsDrawn c → (0 ≤ clock pf)%Z →
  findIndex (λ n, same_id n (nextNotification pf cand c))
    (notifications (react c)) = None.
Proof.
  intros Hc Hpf. apply findIndex_None_iff. intros n Hn.
  apply same_id_false. destruct (Hc n Hn) as (t & k & r & -> & Ht & Hk).
  unfold nextNotification. cbn [id newNotification].
  intros (_ & Heq & _)%formatId_inj; [lia|done..].
Qed.

(** X24. Ids drawn in one page never collide.  In a session that starts
    from an empty ledger and in which the clock is never negative, the id
    that [sendNotification] draws differs from every id in the ledger, so
    the duplicate check never rejects an entry: whenever the store accepts
    the write, the new entry is put at the front of the ledger. *)
Theorem drawn_ids_never_collide (u : User) (steps : list (Platform * Call))
    (c : Config) (pf : Platform) (cand : Candidate) :
  notifications (react c) = [] →
  Forall (λ step, (0 ≤ clock step.1)%Z) steps →
  (0 ≤ clock pf)%Z →
  quotaExceeded pf = false →
  (id (nextNotification pf cand (session (Some u) steps c).2)
     ∉ map id (notifications (react (session (Some u) steps c).2)))
  ∧ notifications
      (react (sendNotification pf (Some u) cand
                (session (Some u) steps c).2).2)
    = take 50
        (nextNotification pf cand (session (Some u) steps c).2
         :: notifications (react (session (Some u) steps c).2)).
Proof.
  intros Hempty Hclock Hpf Hq.
  assert (Hdrawn : idsDrawn (session (Some u) steps c).2).
  { apply session_idsDrawn; [done|]. intros n. rewrite Hempty.
    intros []%elem_of_nil. }
  pose proof (idsDrawn_next_is_new pf cand _ Hdrawn Hpf) as Hnew.
  assert (Hins : isInserted pf
            (nextNotification pf cand (session (Some u) steps c).2)
            (notifications (react (session (Some u) steps c).2)) = true).
  { unfold isInserted. by rewrite Hnew, Hq. }
  split.
  - by apply isInserted_fresh in Hins as [? _].
  - by rewrite sendNotification_ledger, Hins.
Qed.

Lemma drawn_ids_never_collide_witness :
  (id (nextNotification chrome notice
         (session (Some alice)
            [(chrome, call_sendNotification notice);
             (chrome, call_scheduleDeadlineAlerts [projectDue "2024-06-05"])]
            (aliceSession chrome)).2)
     ∉ map id (notifications (react (session (Some alice)
          [(chrome, call_sendNotification notice);
           (chrome, call_scheduleDeadlineAlerts [projectDue "2024-06-05"])]
          (aliceSession chrome)).2)))
  ∧ notifications
      (react (sendNotification chrome (Some alice) notice
                (session (Some alice)
                   [(chrome, call_sendNotification notice);
                    (chrome,
                     call_scheduleDeadlineAlerts [projectDue "2024-06-05"])]
                   (aliceSession chrome)).2).2)
    = take 50
        (nextNotification chrome notice
           (session (Some alice)
              [(chrome, call_sendNotification notice);
               (chrome,
                call_scheduleDeadlineAlerts [projectDue "2024-06-05"])]
              (aliceSession chrome)).2
         :: notifications (react (session (Some alice)
              [(chrome, call_sendNotification notice);
               (chrome,
                call_scheduleDeadlineAlerts [projectDue "2024-06-05"])]
              (aliceSession chrome)).2)).
Proof.
  apply (drawn_ids_never_collide alice _ (aliceSession chrome) chrome notice).
  - reflexivity.
  - repeat constructor; vm_compute; discriminate.
  - vm_compute. discriminate.
  - reflexivity.
Defined.

(** ** The unread count against the ledger *)

Lemma sendNotification_writable_returns (pf : Platform) (u : User)
    (cand : Candidate) (c : Config) :
  quotaExceeded pf = false →
  (sendNotification pf (Some u) cand c).1 = Returned tt.
Proof. intros _. by rewrite sendNotification_eq. Qed.

Lemma sendAll_counts (u : User) (calls : list (Platform * Candidate)) :
  Forall (λ call, quotaExceeded call.1 = false ∧ (0 ≤ clock call.1)%Z) calls →
  ∀ c, idsDrawn c →
    Forall (λ n, read n = false) (notifications (react c)) →
    (length (notifications (react c)) ≤ 50)%nat →
    Forall (λ n, read n = false) (notifications (react (sendAll u calls c).2))
    ∧ unreadCount (react (sendAll u calls c).2)
      = (length calls + unreadCount (react c))%nat
    ∧ length (notifications (react (sendAll u calls c).2))
      = (50 `min` (length calls + length (notifications (react c))))%nat.
Proof.
  induction 1 as [|[pf cand] calls [Hq Hclock] _ IH];
    intros c Hdrawn Hunread Hlen.
  - unfold sendAll. cbn [forEach]. unfold mret, op_ret. cbn [snd length].
    repeat split; first [done | lia].
  - cbn [fst snd] in *. rewrite sendAll_cons.
    pose proof (sendNotification_writable_returns pf u cand c Hq) as Hret.
    set (c1 := (sendNotification pf (Some u) cand c).2).
    pose proof (idsDrawn_next_is_new pf cand c Hdrawn Hclock) as Hnew.
    assert (Hl1 : notifications (react c1)
                  = take 50 (nextNotification pf cand c
                             :: notifications (react c))).
    { unfold c1. rewrite sendNotification_ledger. unfold isInserted.
      by rewrite Hnew, Hq. }
    assert (Hu1 : unreadCount (react c1) = S (unreadCount (react c))).
    { apply (sendNotification_unreadCount pf u cand c c1).
      unfold c1. rewrite <- Hret. apply surjective_pairing. }
    assert (Hdrawn1 : idsDrawn c1)
      by (by apply sendNotification_idsDrawn).
    assert (Hunread1 : Forall (λ n, read n = false) (notifications (react c1))).
    { rewrite Hl1. apply Forall_take. by constructor. }
    assert (Hlen1 : (length (notifications (react c1)) ≤ 50)%nat)
      by (rewrite Hl1, length_take; lia).
    destruct (IH c1 Hdrawn1 Hunread1 Hlen1) as (IH1 & IH2 & IH3).
    split; [exact IH1|]. split.
    + rewrite IH2, Hu1. cbn [length]. lia.
    + rewrite IH3, Hl1, length_take. cbn [length]. lia.
Qed.

Lemma countUnread_all_unread (l : list Notification) :
  Forall (λ n, read n = false) l → countUnread l = length l.
Proof.
  induction 1 as [|n l Hn _ IH]; [reflexivity|].
  rewrite countUnread_cons, Hn, IH. reflexivity.
Qed.

(** X25. How far the unread count can be from the ledger: when a page
    starts with an empty ledger and a count of zero, and [sendNotification]
    is called k times with a store that accepts the writes and a clock that
    is not negative, the unread count is k, while the ledger holds the
    latest min(k, 50) entries, all unread.  The count is right up to 50
    calls and too high by k - 50 after that. *)
Theorem unread_count_after_sends (u : User)
    (calls : list (Platform * Candidate)) (c : Config) :
  notifications (react c) = [] →
  unreadCount (react c) = 0%nat →
  Forall (λ call, quotaExceeded call.1 = false ∧ (0 ≤ clock call.1)%Z) calls →
  unreadCount (react (sendAll u calls c).2) = length calls
  ∧ length (notifications (react (sendAll u calls c).2))
    = (50 `min` length calls)%nat
  ∧ countUnread (notifications (react (sendAll u calls c).2))
    = (50 `min` length calls)%nat.
Proof.
  intros Hempty Hzero Hcalls.
  destruct (sendAll_counts u calls Hcalls c) as (Hall & Hcount & Hlen).
  - intros n. rewrite Hempty. intros []%elem_of_nil.
  - rewrite Hempty. constructor.
  - rewrite Hempty. cbn. lia.
  - rewrite Hempty, Hzero in *. cbn [length] in *.
    rewrite countUnread_all_unread by done.
    rewrite Hcount, Hlen. repeat split; f_equal; lia.
Qed.

Lemma unread_count_after_sends_witness :
  unreadCount (react (sendAll alice (replicate 60 (chrome, notice))
                        (aliceSession chrome)).2)
  = length (replicate 60 (chrome, notice))
  ∧ length (notifications (react (sendAll alice
              (replicate 60 (chrome, notice)) (aliceSession chrome)).2))
    = (50 `min` length (replicate 60 (chrome, notice)))%nat
  ∧ countUnread (notifications (react (sendAll alice
                   (replicate 60 (chrome, notice)) (aliceSession chrome)).2))
    = (50 `min` length (replicate 60 (chrome, notice)))%nat.
Proof.
  apply (unread_count_after_sends alice _ (aliceSession chrome)).
  - reflexivity.
  - reflexivity.
  - apply Forall_replicate. split; [reflexivity|]. vm_compute. discriminate.
Defined.

(** ** The module-level defaults *)

(** X26. The defaults object is shared with the settings being loaded.
    When the user has stored settings that parse, the initialisation works
    on a copy and the defaults stay as they are.  When nothing is stored or
    the stored text does not parse, the synchronisation with the permission
    writes into the defaults themselves: they end up equal to the loaded
    settings.  So an initialisation that finds nothing stored, with push
    supported and the permission granted, leaves the defaults with [push]
    true from then on. *)
Theorem initialisation_can_change_defaults (pf : Platform) (u : User)
    (c : Config) (pfG : Platform) (cG : Config) :
  initialized (react c) = false →
  initialized (react cG) = false →
  pushSupported (react cG) && hasNotificationAPI pfG = true →
  permission (world cG) = granted →
  localStorage (world cG) !! settingsKey u = None →
  defaultSettings (world (initEffect pf (Some u) c).2)
  = match localStorage (world c) !! settingsKey u with
    | Some (JSettings _) | Some (JNotifications _) =>
        defaultSettings (world c)
    | Some (JInvalid _) | None => loadedSettings pf u c
    end
  ∧ push (defaultSettings (world (initEffect pfG (Some u) cG).2)) = true.
Proof.
  intros Hinit HinitG Hsup Hperm Hnone.
  assert (H : ∀ pf c, initialized (react c) = false →
    defaultSettings (world (initEffect pf (Some u) c).2)
    = match localStorage (world c) !! settingsKey u with
      | Some (JSettings _) | Some (JNotifications _) =>
          defaultSettings (world c)
      | Some (JInvalid _) | None => loadedSettings pf u c
      end).
  { clear. intros pf c Hinit.
    unfold loadedSettings, initEffect, getItem, setItem, setSettings,
      setNotifications, setUnreadCount, setInitialized, assignDefaultSettings.
    unfold_op. rewrite Hinit. cbn.
    destruct (localStorage (world c) !! settingsKey u) as [[]|]; cbn;
      destruct (quotaExceeded pf); cbn; try reflexivity;
      destruct (_ !! notificationsKey u) as [[]|]; cbn; try reflexivity;
      destruct (negb _); reflexivity. }
  split; [by apply H|].
  rewrite H by exact HinitG. rewrite Hnone.
  unfold loadedSettings. rewrite Hsup, Hperm, Hnone.
  apply syncPush_granted.
Qed.

Lemma initialisation_can_change_defaults_witness :
  defaultSettings (world (initEffect chrome (Some bob)
                            (mountedWith chrome usedStore granted)).2)
  = match localStorage (world (mountedWith chrome usedStore granted))
          !! settingsKey bob with
    | Some (JSettings _) | Some (JNotifications _) =>
        defaultSettings (world (mountedWith chrome usedStore granted))
    | Some (JInvalid _) | None =>
        loadedSettings chrome bob (mountedWith chrome usedStore granted)
    end
  ∧ push (defaultSettings
            (world (initEffect chrome (Some bob)
                      (mountedWith chrome ∅ granted)).2)) = true.
Proof.
  apply (initialisation_can_change_defaults chrome bob
           (mountedWith chrome usedStore granted)
           chrome (mountedWith chrome ∅ granted)); reflexivity.
Defined.
